(** * YBIT Voice front end: the view-state engine of [src/App.js]

    A shallow embedding of the state handling in [App.js] (session state,
    suggestion cache, filter pipeline, notification slot) together with
    the properties the specification states about it. *)

From Stdlib Require Import ZArith String Ascii List Sorting.Sorted.
From stdpp Require Import base tactics option list.
Import ListNotations.
Local Open Scope string_scope.
Local Open Scope list_scope.
Local Open Scope Z_scope.

(** ** JavaScript strings *)

Module Js.

(** [a || d] on a string-or-undefined value: [undefined] and the empty
  string are both falsy. *)
Definition orElse (a : option string) (d : string) : string :=
match a with
| Some (String c s) => String c s
| Some EmptyString | None => d
end.

(** [String.prototype.includes]: some suffix of [s] starts with [sub]. *)
Fixpoint includes (s sub : string) : bool :=
String.prefix sub s ||
match s with
| EmptyString => false
| String _ s' => includes s' sub
end.

(** The double quote character, which the template literals of the
  program embed in messages. *)
Definition dquote : string := String (ascii_of_nat 34) EmptyString.

(** [String.prototype.toLowerCase] restricted to the ASCII range, used to
  run the pipeline on concrete inputs.  The pipeline itself is
  parametric in the lowering function. *)
Definition lowerAscii (c : ascii) : ascii :=
let n := nat_of_ascii c in
if (65 <=? n)%nat && (n <=? 90)%nat then ascii_of_nat (n + 32) else c.

Fixpoint toLowerCaseAscii (s : string) : string :=
match s with
| EmptyString => EmptyString
| String c s' => String (lowerAscii c) (toLowerCaseAscii s')
end.

End Js.

(** ** Data model *)

(** A suggestion as the program reads it.  [title] and [description] may
    be missing (the program guards them with [|| ""]); [createdAt] is the
    millisecond value of [new Date(s.createdAt)]. *)
Record Suggestion := mkSuggestion {
  _id : string;
  title : option string;
  description : option string;
  category : string;
  status : string;
  s_email : string;
  s_department : option string;
  updatedBy : option string;
  createdAt : Z;
  updatedAt : option Z
}.

(** The four filter controls ([useState] cells of [App]). *)
Record Controls := mkControls {
  statusFilter : string;
  categoryFilter : string;
  searchTerm : string;
  sortOrder : string
}.

(** ** Arrays as heap objects

    [Array.prototype.filter] allocates a new array, while
    [Array.prototype.sort] sorts the receiver in place and returns it.
    Arrays therefore live in a store and are handled by reference. *)

Module JsArray.
Section Arrays.
Context {A : Type}.

Definition ref := nat.

(** Computations over the array store, a list of arrays indexed by
    reference; [None] is a dangling reference. *)
Definition M (B : Type) := list (list A) -> option (B * list (list A)).

Definition ret {B} (b : B) : M B := fun h => Some (b, h).

Definition bind {B C} (m : M B) (k : B -> M C) : M C :=
fun h => match m h with
         | Some (b, h') => k b h'
         | None => None
         end.

Definition alloc (xs : list A) : M ref :=
fun h => Some (List.length h, h ++ [xs]).

(** [arr.filter(f)]: a fresh array, the receiver is left alone. *)
Definition filter (f : A -> bool) (r : ref) : M ref :=
fun h => match h !! r with
         | Some xs => alloc (List.filter f xs) h
         | None => None
         end.

(** Insertion step of the sort: [x] goes in front of the first element
  it does not compare strictly after. *)
Fixpoint insert (cmp : A -> A -> Z) (x : A) (l : list A) : list A :=
match l with
| [] => [x]
| y :: l' => if 0 <? cmp x y then y :: insert cmp x l' else x :: l
end.

(** The order [Array.prototype.sort] produces for a consistent
  comparator: sorted by [cmp], equal elements in their original
  order (the sort is stable). *)
Definition sorted_by (cmp : A -> A -> Z) (l : list A) : list A :=
foldr (insert cmp) [] l.

(** [arr.sort(cmp)]: the receiver is overwritten and returned. *)
Definition sort (cmp : A -> A -> Z) (r : ref) : M ref :=
fun h => match h !! r with
         | Some xs => Some (r, <[r := sorted_by cmp xs]> h)
         | None => None
         end.
End Arrays.
End JsArray.

Notation "'do' x <- m ; k" := (JsArray.bind m (fun x => k))
  (at level 10, x name, m at level 100, k at level 200).

(** ** The filter pipeline ([filteredSuggestions], App.js 196-207) *)

Section Pipeline.
(** [String.prototype.toLowerCase]. *)
Variable toLowerCase : string -> string.

Definition statusTest (c : Controls) (s : Suggestion) : bool :=
  if (statusFilter c =? "all")%string then true
  else (status s =? statusFilter c)%string.

Definition categoryTest (c : Controls) (s : Suggestion) : bool :=
  if (categoryFilter c =? "all")%string then true
  else (category s =? categoryFilter c)%string.

Definition searchTest (c : Controls) (s : Suggestion) : bool :=
  Js.includes (toLowerCase (Js.orElse (title s) "")) (toLowerCase (searchTerm c))
  || Js.includes (toLowerCase (Js.orElse (description s) ""))
                 (toLowerCase (searchTerm c)).

(** The comparator handed to [sort]. *)
Definition byCreatedAt (c : Controls) (a b : Suggestion) : Z :=
  if (sortOrder c =? "newest")%string then createdAt b - createdAt a
  else createdAt a - createdAt b.

Definition filteredSuggestions (c : Controls) (suggestions : JsArray.ref)
  : JsArray.M JsArray.ref :=
  do r1 <- JsArray.filter (statusTest c) suggestions;
  do r2 <- JsArray.filter (categoryTest c) r1;
  do r3 <- JsArray.filter (searchTest c) r2;
  JsArray.sort (byCreatedAt c) r3.

(** The three filters fused, as a predicate on one record. *)
Definition keeps (c : Controls) (s : Suggestion) : bool :=
  statusTest c s && categoryTest c s && searchTest c s.

(** The contents of the array the pipeline returns, as a function of
    the contents of the cache. *)
Definition filtered (c : Controls) (cache : list Suggestion) : list Suggestion :=
  JsArray.sorted_by (byCreatedAt c) (List.filter (keeps c) cache).
End Pipeline.

(** ** React state and its environment *)

Record Notification := mkNotification {
  message : string;
  type : string
}.

(** The [useState] cells of [App]. *)
Record State := mkState {
  loggedIn : bool;
  email : string;
  isAdmin : bool;
  isPrincipal : bool;
  department : string;
  suggestions : list Suggestion;
  viewSuggestion : option Suggestion;
  controls : Controls;
  loading : bool;
  notification : option Notification
}.

Definition setLoggedIn (v : bool) (s : State) : State :=
  mkState v (email s) (isAdmin s) (isPrincipal s) (department s)
    (suggestions s) (viewSuggestion s) (controls s) (loading s) (notification s).
Definition setEmail (v : string) (s : State) : State :=
  mkState (loggedIn s) v (isAdmin s) (isPrincipal s) (department s)
    (suggestions s) (viewSuggestion s) (controls s) (loading s) (notification s).
Definition setIsAdmin (v : bool) (s : State) : State :=
  mkState (loggedIn s) (email s) v (isPrincipal s) (department s)
    (suggestions s) (viewSuggestion s) (controls s) (loading s) (notification s).
Definition setIsPrincipal (v : bool) (s : State) : State :=
  mkState (loggedIn s) (email s) (isAdmin s) v (department s)
    (suggestions s) (viewSuggestion s) (controls s) (loading s) (notification s).
Definition setDepartment (v : string) (s : State) : State :=
  mkState (loggedIn s) (email s) (isAdmin s) (isPrincipal s) v
    (suggestions s) (viewSuggestion s) (controls s) (loading s) (notification s).
(** [setSuggestions] takes an updater, as in [setSuggestions((prev) => ...)];
    a plain value is the constant updater. *)
Definition setSuggestions (f : list Suggestion -> list Suggestion) (s : State) : State :=
  mkState (loggedIn s) (email s) (isAdmin s) (isPrincipal s) (department s)
    (f (suggestions s)) (viewSuggestion s) (controls s) (loading s) (notification s).
Definition setViewSuggestion (v : option Suggestion) (s : State) : State :=
  mkState (loggedIn s) (email s) (isAdmin s) (isPrincipal s) (department s)
    (suggestions s) v (controls s) (loading s) (notification s).
Definition setControls (f : Controls -> Controls) (s : State) : State :=
  mkState (loggedIn s) (email s) (isAdmin s) (isPrincipal s) (department s)
    (suggestions s) (viewSuggestion s) (f (controls s)) (loading s) (notification s).
Definition setLoading (v : bool) (s : State) : State :=
  mkState (loggedIn s) (email s) (isAdmin s) (isPrincipal s) (department s)
    (suggestions s) (viewSuggestion s) (controls s) v (notification s).
Definition setNotification (v : option Notification) (s : State) : State :=
  mkState (loggedIn s) (email s) (isAdmin s) (isPrincipal s) (department s)
    (suggestions s) (viewSuggestion s) (controls s) (loading s) v.

Definition setStatusFilter (v : string) : State -> State :=
  setControls (fun c => mkControls v (categoryFilter c) (searchTerm c) (sortOrder c)).
Definition setCategoryFilter (v : string) : State -> State :=
  setControls (fun c => mkControls (statusFilter c) v (searchTerm c) (sortOrder c)).
Definition setSearchTerm (v : string) : State -> State :=
  setControls (fun c => mkControls (statusFilter c) (categoryFilter c) v (sortOrder c)).
Definition setSortOrder (v : string) : State -> State :=
  setControls (fun c => mkControls (statusFilter c) (categoryFilter c) (searchTerm c) v).

(** The values of the [useState] initialisers. *)
Definition initialState : State :=
  mkState false "" false false "" [] None
    (mkControls "all" "all" "" "newest") false None.

(** The fields of the submission form ([Object.fromEntries(new FormData ...)]). *)
Record Form := mkForm {
  f_category : string;
  f_title : string;
  f_description : string
}.

(** The calls [fetch] is given, by endpoint, with the values the program
    interpolates into the URL or the body. *)
Inductive Request :=
| PostAuthGoogle (token : string)
| GetAdminSuggestions (email : string)
| GetStudentSuggestions (email : string)
| PostSuggestion (email : string) (form : Form)
| DeleteStudentSuggestion (id : string)
| PatchAdminSuggestion (id : string) (status updatedBy : string)
| GetAdminView (id : string)
| GetStudentView (id : string) (email : string).

(** The requests into which the program writes the session's [email]. *)
Definition carriesIdentity (r : Request) : bool :=
  match r with
  | GetAdminSuggestions _ | GetStudentSuggestions _
  | PostSuggestion _ _ | GetStudentView _ _ => true
  | PostAuthGoogle _ | DeleteStudentSuggestion _
  | PatchAdminSuggestion _ _ _ | GetAdminView _ => false
  end.

(** What an awaited [fetch] followed by [res.json()] delivers. *)
Inductive Fetch (A : Type) :=
| Rejected                               (* [fetch] itself rejects *)
| Responded (ok : bool) (json : option A). (* [None]: [res.json()] rejects *)
Arguments Rejected {A}.
Arguments Responded {A} ok json.

(** The body of the list endpoints: [Array.isArray] holds or not. *)
Inductive Json :=
| JArray (items : list Suggestion)
| JOther.

(** [Array.isArray(data) ? data : []] *)
Definition arrayOrEmpty (data : Json) : list Suggestion :=
  match data with
  | JArray items => items
  | JOther => []
  end.

(** A JSON object from a record endpoint.  The program stores it as a
    suggestion on a 2xx answer and reads its [error] field otherwise. *)
Record JsonObject := mkJsonObject {
  asSuggestion : Suggestion;
  error : option string
}.

(** The body of the login exchange. *)
Record LoginReply := mkLoginReply {
  r_email : string;
  r_isAdmin : option bool;
  r_isPrincipal : option bool;
  r_department : option string;
  r_error : option string
}.

(** The component together with what surrounds it: the clock, the
    deadlines of the pending [setTimeout] callbacks (every one of them
    is [() => setNotification(null)]), and the calls made to [fetch]. *)
Record World := mkWorld {
  ui : State;
  now : Z;
  timeouts : list Z;
  requests : list Request
}.

Definition initialWorld : World := mkWorld initialState 0 [] [].

(** A state update applied to the component. *)
Definition upd (f : State -> State) (w : World) : World :=
  mkWorld (f (ui w)) (now w) (timeouts w) (requests w).

Definition setTimeout (delay : Z) (w : World) : World :=
  mkWorld (ui w) (now w) (timeouts w ++ [now w + delay]) (requests w).

Definition fetch (r : Request) (w : World) : World :=
  mkWorld (ui w) (now w) (timeouts w) (requests w ++ [r]).

(** Time passes by [dt]: the callbacks that have come due run and leave
    the pending list. *)
Definition advance (dt : Z) (w : World) : World :=
  let t := now w + dt in
  let due := List.filter (fun d => d <=? t) (timeouts w) in
  let rest := List.filter (fun d => negb (d <=? t)) (timeouts w) in
  mkWorld (match due with
           | [] => ui w
           | _ :: _ => setNotification None (ui w)
           end) t rest (requests w).

(** ** The handlers

    A handler is a closure of the render it was created in: it reads the
    state cells of that render ([snap]) and writes through the setters,
    which act on the state current when the awaited call completes.  The
    answer of the awaited [fetch] is an argument, and a handler is one
    step, taken when that answer arrives: the call is entered in the log
    and the updates the handler makes after its [await] are applied
    together.  Other events come between the steps. *)

(** [showNotification] (App.js 30-33) *)
Definition showNotification (msg : string) (type : string) (w : World) : World :=
  setTimeout 4000 (upd (setNotification (Some (mkNotification msg type))) w).

(** [handleCredentialResponse] (App.js 36-61); [credential] is
    [response?.credential]. *)
Definition handleCredentialResponse (credential : option string)
    (reply : Fetch LoginReply) (w : World) : World :=
  match credential with
  | None | Some EmptyString => showNotification "No credential returned" "error" w
  | Some token =>
    let w := fetch (PostAuthGoogle token) w in
    match reply with
    | Responded true (Some result) =>
      let w := upd (setEmail (r_email result)) w in
      let w := upd (setIsAdmin (default false (r_isAdmin result))) w in
      let w := upd (setIsPrincipal (default false (r_isPrincipal result))) w in
      let w := upd (setDepartment (Js.orElse (r_department result) "")) w in
      let w := upd (setLoggedIn true) w in
      showNotification "Logged in successfully!" "success" w
    | Responded false (Some result) =>
      showNotification (Js.orElse (r_error result) "Login failed") "error" w
    | Rejected | Responded _ None =>
      showNotification "Login error. Check console." "error" w
    end
  end.

(** [loadSuggestions] (App.js 94-117) *)
Definition loadSuggestions (snap : State) (reply : Fetch Json) (w : World) : World :=
  match email snap with
  | EmptyString => w
  | _ =>
    let url := if isAdmin snap then GetAdminSuggestions (email snap)
               else GetStudentSuggestions (email snap) in
    let w := fetch url w in
    match reply with
    | Responded false (Some err) =>
      let w := upd (setSuggestions (fun _ => [])) w in
      showNotification "Failed to load suggestions" "error" w
    | Responded true (Some data) =>
      upd (setSuggestions (fun _ => arrayOrEmpty data)) w
    | Rejected | Responded _ None =>
      let w := upd (setSuggestions (fun _ => [])) w in
      showNotification "Failed to load suggestions. Check console." "error" w
    end
  end.

(** [handleRefresh] (App.js 124-129) *)
Definition handleRefresh (snap : State) (reply : Fetch Json) (w : World) : World :=
  let w := upd (setLoading true) w in
  let w := loadSuggestions snap reply w in
  let w := upd (setLoading false) w in
  showNotification "Suggestions refreshed" "info" w.

(** [viewSuggestion && viewSuggestion._id === id] *)
Definition viewing (snap : State) (id : string) : bool :=
  match viewSuggestion snap with
  | Some v => (_id v =? id)%string
  | None => false
  end.

(** [handleDelete] (App.js 132-148); [confirmed] is the answer of
    [window.confirm]. *)
Definition handleDelete (snap : State) (id : string) (confirmed : bool)
    (reply : Fetch JsonObject) (w : World) : World :=
  if negb confirmed then w
  else
    let w := fetch (DeleteStudentSuggestion id) w in
    match reply with
    | Responded false (Some err) =>
      showNotification (Js.orElse (error err) "Delete failed") "error" w
    | Responded true _ =>
      let w := upd (setSuggestions
                      (List.filter (fun s => negb (_id s =? id)%string))) w in
      let w := if viewing snap id then upd (setViewSuggestion None) w else w in
      showNotification "Suggestion deleted successfully!" "success" w
    | Rejected | Responded false None =>
      showNotification "Delete failed. Check console." "error" w
    end.

(** [handleStatusChange] (App.js 151-172) *)
Definition handleStatusChange (snap : State) (id status : string)
    (reply : Fetch JsonObject) (w : World) : World :=
  let updatedBy := if isPrincipal snap then "Principal" else "HOD" in
  let w := fetch (PatchAdminSuggestion id status updatedBy) w in
  match reply with
  | Responded true (Some updated) =>
    let w := upd (setSuggestions
                    (map (fun s => if (_id s =? id)%string
                                   then asSuggestion updated else s))) w in
    let w := if viewing snap id
             then upd (setViewSuggestion (Some (asSuggestion updated))) w
             else w in
    showNotification
      ("Status updated to " ++ Js.dquote ++ status ++ Js.dquote)%string "success" w
  | Responded false (Some updated) =>
    showNotification (Js.orElse (error updated) "Status update failed") "error" w
  | Rejected | Responded _ None =>
    showNotification "Status update failed. Check console." "error" w
  end.

(** [handleView] (App.js 175-192) *)
Definition handleView (snap : State) (id : string)
    (reply : Fetch JsonObject) (w : World) : World :=
  let url := if isAdmin snap then GetAdminView id
             else GetStudentView id (email snap) in
  let w := fetch url w in
  match reply with
  | Responded false (Some data) =>
    showNotification
      (Js.orElse (error data) "Failed to load suggestion details") "error" w
  | Responded true (Some data) =>
    upd (setViewSuggestion (Some (asSuggestion data))) w
  | Rejected | Responded _ None =>
    showNotification "Failed to load suggestion details. Check console." "error" w
  end.

(** [closeView] (App.js 193) *)
Definition closeView (w : World) : World := upd (setViewSuggestion None) w.

(** The [onSubmit] handler of the suggestion form (App.js 311-332);
    [reload] answers the [loadSuggestions] it awaits on success. *)
Definition onSubmit (snap : State) (data : Form)
    (reply : Fetch JsonObject) (reload : Fetch Json) (w : World) : World :=
  let w := fetch (PostSuggestion (email snap) data) w in
  match reply with
  | Responded false (Some err) =>
    showNotification (Js.orElse (error err) "Submit failed") "error" w
  | Responded true _ =>
    let w := loadSuggestions snap reload w in
    showNotification "Suggestion submitted!" "success" w
  | Rejected | Responded false None =>
    showNotification "Submit failed. Check console." "error" w
  end.

(** The two halves of [onSubmit]: up to its [await fetch(...)], and from
    the answer on.  The second half runs when the POST is answered, in
    the closure of the render in which the form was submitted. *)
Definition onSubmitStart (snap : State) (data : Form) (w : World) : World :=
  fetch (PostSuggestion (email snap) data) w.

Definition onSubmitDone (snap : State)
    (reply : Fetch JsonObject) (reload : Fetch Json) (w : World) : World :=
  match reply with
  | Responded false (Some err) =>
    showNotification (Js.orElse (error err) "Submit failed") "error" w
  | Responded true _ =>
    let w := loadSuggestions snap reload w in
    showNotification "Suggestion submitted!" "success" w
  | Rejected | Responded false None =>
    showNotification "Submit failed. Check console." "error" w
  end.

(** [handleLogout] (App.js 210-221) *)
Definition handleLogout (w : World) : World :=
  let w := upd (setLoggedIn false) w in
  let w := upd (setEmail "") w in
  let w := upd (setIsAdmin false) w in
  let w := upd (setIsPrincipal false) w in
  let w := upd (setDepartment "") w in
  let w := upd (setSuggestions (fun _ => [])) w in
  let w := upd (setViewSuggestion None) w in
  let w := upd (setNotification None) w in
  showNotification "Logged out successfully" "info" w.

(** ** Runs of the component *)

(** What can happen to the component: a handler completes, a control is
    changed, or time passes. *)
Inductive Event :=
| CredentialResponse (credential : option string) (reply : Fetch LoginReply)
| LoadSuggestions (reply : Fetch Json)
| Refresh (reply : Fetch Json)
| Delete (id : string) (confirmed : bool) (reply : Fetch JsonObject)
| StatusChange (id status : string) (reply : Fetch JsonObject)
| View (id : string) (reply : Fetch JsonObject)
| CloseView
| Submit (data : Form) (reply : Fetch JsonObject) (reload : Fetch Json)
| SetStatusFilter (v : string)
| SetCategoryFilter (v : string)
| SetSearchTerm (v : string)
| SetSortOrder (v : string)
| Logout
| Elapse (dt : N).

(** The event [e], handled by a closure of the render [snap]. *)
Definition step (snap : State) (e : Event) (w : World) : World :=
  match e with
  | CredentialResponse credential reply => handleCredentialResponse credential reply w
  | LoadSuggestions reply => loadSuggestions snap reply w
  | Refresh reply => handleRefresh snap reply w
  | Delete id confirmed reply => handleDelete snap id confirmed reply w
  | StatusChange id status reply => handleStatusChange snap id status reply w
  | View id reply => handleView snap id reply w
  | CloseView => closeView w
  | Submit data reply reload => onSubmit snap data reply reload w
  | SetStatusFilter v => upd (setStatusFilter v) w
  | SetCategoryFilter v => upd (setCategoryFilter v) w
  | SetSearchTerm v => upd (setSearchTerm v) w
  | SetSortOrder v => upd (setSortOrder v) w
  | Logout => handleLogout w
  | Elapse dt => advance (Z.of_N dt) w
  end.

(** [run tr]: [tr] lists the worlds of a run, latest first.  A handler
    that completes was created in the current or an earlier render; the
    effect that loads the list after a login is the event
    [LoadSuggestions].  Every handler is taken to be on offer in every
    render, which the logged-out screen does not do: the runs of the
    component are among these. *)
Inductive run : list World -> Prop :=
| run_start : run [initialWorld]
| run_step w tr old e :
    run (w :: tr) -> old ∈ w :: tr -> run (step (ui old) e w :: w :: tr).

Definition reachable (w : World) : Prop := exists tr, run (w :: tr).

(** The session is empty: the identity cells hold their initial values. *)
Definition sessionEmpty (s : State) : Prop :=
  email s = "" /\ isAdmin s = false /\ isPrincipal s = false /\ department s = "".

(** ** What the specification says of the pipeline *)

Section PipelineSpec.
Variable toLowerCase : string -> string.

(** Case-insensitive substring match of [term] in [field]. *)
Definition matchesFolded (term field : string) : Prop :=
  exists a b, toLowerCase field = (a ++ toLowerCase term ++ b)%string.

(** The record passes the status, category and search predicates. *)
Definition satisfies (c : Controls) (s : Suggestion) : Prop :=
  (statusFilter c = "all" \/ status s = statusFilter c) /\
  (categoryFilter c = "all" \/ category s = categoryFilter c) /\
  (matchesFolded (searchTerm c) (Js.orElse (title s) "") \/
   matchesFolded (searchTerm c) (Js.orElse (description s) "")).

(** [a] may stand before [b] under the chosen sort order. *)
Definition inOrder (c : Controls) (a b : Suggestion) : Prop :=
  (sortOrder c = "newest" -> createdAt b <= createdAt a) /\
  (sortOrder c <> "newest" -> createdAt a <= createdAt b).
End PipelineSpec.

(** ** Sample data *)

Module Sample.
Definition T1 : Z := 1000.
Definition T2 : Z := 2000.

Definition rec1 : Suggestion :=
  mkSuggestion "1" (Some "Library hours") (Some "Open the library on Sundays")
    "facilities" "pending" "a@ybit.ac.in" None None T1 None.
Definition rec2 : Suggestion :=
  mkSuggestion "2" (Some "Projector") None
    "technology" "resolved" "b@ybit.ac.in" None (Some "HOD") T2 None.
Definition rec3 : Suggestion :=
  mkSuggestion "3" (Some "WiFi in LIBRARY") (Some "Slow")
    "technology" "pending" "a@ybit.ac.in" None None T1 None.

(** Record 1 as the server returns it after it was resolved. *)
Definition rec1_resolved : Suggestion :=
  mkSuggestion "1" (Some "Library hours") (Some "Open the library on Sundays")
    "facilities" "resolved" "a@ybit.ac.in" None (Some "HOD") T1 (Some 3000).

Definition cache : list Suggestion := [rec1; rec2; rec3].

Definition student : State :=
  mkState true "a@ybit.ac.in" false false "" cache (Some rec1)
    (mkControls "all" "all" "" "newest") false None.

Definition hod : State :=
  mkState true "hod@ybit.ac.in" true false "IT" cache (Some rec2)
    (mkControls "all" "all" "" "newest") false None.

Definition world (s : State) : World := mkWorld s 0 [] [].

Definition A : Notification := mkNotification "A" "success".
Definition B : Notification := mkNotification "B" "success".

(** [notify("A")] at time 0, [notify("B")] one second later. *)
Definition afterAB : World :=
  showNotification "B" "success"
    (advance 1000 (showNotification "A" "success" (world student))).
End Sample.

(** A call whose JSON body the handler always reads has failed when
    the transport fails, the body does not parse, or the status is not
    2xx. *)
Inductive failure {A : Type} : Fetch A -> Prop :=
| network_failure : failure Rejected
| parse_failure ok : failure (Responded ok None)
| status_failure body : failure (Responded false body).

(** The session cells of a state. *)
Definition session (s : State) : bool * string * bool * bool * string :=
  (loggedIn s, email s, isAdmin s, isPrincipal s, department s).

(** A logged-out state holds no identity. *)
Definition sessionInvariant (w : World) : Prop :=
  loggedIn (ui w) = false -> sessionEmpty (ui w).

(** A login attempt has failed when no credential came back or the
    exchange call failed. *)
Definition loginFails (credential : option string) (reply : Fetch LoginReply) : Prop :=
  Js.orElse credential "" = "" \/ failure reply.

(** A run in which a user logs in and out again. *)
Definition loginLogoutRun : list World :=
  let reply := Responded true
                 (Some (mkLoginReply "hod@ybit.ac.in" (Some true) None (Some "IT") None)) in
  let w1 := step (ui initialWorld) (CredentialResponse (Some "token") reply) initialWorld in
  let w2 := step (ui w1) Logout w1 in
  [w2; w1; initialWorld].

(** ** What the dashboard renders (App.js 266-457) *)

(** The handler calls behind the buttons of a table row. *)
Inductive Action :=
| ClickView (id : string)
| ClickStatus (id status : string)
| ClickDelete (id : string).

(** The status buttons of a row (App.js 416-422):
    [isAdmin && !["resolved", "invalid"].includes(s.status) && ...]. *)
Definition statusButtons (isAdmin : bool) (s : Suggestion) : list Action :=
  if isAdmin && negb ((status s =? "resolved")%string || (status s =? "invalid")%string)
  then (if negb (status s =? "in-progress")%string
        then [ClickStatus (_id s) "in-progress"] else [])
       ++ [ClickStatus (_id s) "resolved"; ClickStatus (_id s) "invalid"]
  else [].

(** The buttons of a row (App.js 414-424). *)
Definition rowActions (isAdmin : bool) (s : Suggestion) : list Action :=
  [ClickView (_id s)] ++ statusButtons isAdmin s
  ++ (if negb isAdmin then [ClickDelete (_id s)] else []).

(** The description cell of a row (App.js 407):
    [(s.description || "").slice(0, 50)] and an ellipsis when longer.
    [d] is the value of [s.description || ""] as the sequence of its
    UTF-16 code units, the units in which [slice] and [length] count;
    a dot is code unit 46. *)
Definition descriptionCell (d : list N) : list N :=
  take 50 d ++ (if (50 <? List.length d)%nat then [46; 46; 46]%N else []).

(** The notification bar (App.js 266-286): message and background
    colour, rendered inside the [loggedIn &&] branch only. *)
Definition notificationBar (s : State) : option (string * string) :=
  if loggedIn s then
    match notification s with
    | Some n => Some (message n,
                      if (type n =? "success")%string then "#48bb78" else "#e53e3e")
    | None => None
    end
  else None.

Section Rendering.
Variable toLowerCase : string -> string.

(** The rows of the table ([filteredSuggestions.map], App.js 402-427);
    the logged-out screen has no table. *)
Definition tableRows (s : State) : list Suggestion :=
  if loggedIn s then filtered toLowerCase (controls s) (suggestions s) else [].

(** The buttons of all the rows on screen. *)
Definition offeredActions (s : State) : list Action :=
  flat_map (rowActions (isAdmin s)) (tableRows s).
End Rendering.

(** ** Frames of the events *)

(** The events whose handlers call [setSuggestions]. *)
Definition writesCache (e : Event) : bool :=
  match e with
  | LoadSuggestions _ | Refresh _ | Delete _ _ _ | StatusChange _ _ _
  | Submit _ _ _ | Logout => true
  | _ => false
  end.

(** The events whose handlers call [setViewSuggestion]. *)
Definition writesSelection (e : Event) : bool :=
  match e with
  | Delete _ _ _ | StatusChange _ _ _ | View _ _ | CloseView | Logout => true
  | _ => false
  end.

(** The events whose handlers can reach a [fetch]. *)
Definition callsFetch (e : Event) : bool :=
  match e with
  | CredentialResponse _ _ | LoadSuggestions _ | Refresh _ | Delete _ _ _
  | StatusChange _ _ _ | View _ _ | Submit _ _ _ => true
  | _ => false
  end.

(** Every pending timer is due within the next four seconds, and a
    notification on display has a timer pending. *)
Definition timersFresh (w : World) : Prop :=
  (forall d, d ∈ timeouts w -> now w < d <= now w + 4000) /\
  (notification (ui w) <> None -> timeouts w <> []).

(** The controls with another sort order. *)
Definition withSortOrder (v : string) (c : Controls) : Controls :=
  mkControls (statusFilter c) (categoryFilter c) (searchTerm c) v.

(** * Properties *)

(** ** Strings *)

Lemma prefix_app (p s : string) :
  String.prefix p s = true <-> exists b, s = (p ++ b)%string.
Proof.
  revert s; induction p as [|c p IH]; intros s; simpl.
  - split; [intros _; by exists s | intros _; by destruct s].
  - destruct s as [|d s]; simpl.
    + split; [done | intros [b Hb]; discriminate].
    + destruct (ascii_dec c d) as [->|Hne].
      * rewrite IH. split; intros [b Hb]; exists b; congruence.
      * split; [done | intros [b Hb]; congruence].
Qed.

(** [includes] is the substring test. *)
Lemma includes_spec (s sub : string) :
  Js.includes s sub = true <-> exists a b, s = (a ++ sub ++ b)%string.
Proof.
  induction s as [|c s IH].
  - change (Js.includes "" sub) with (String.prefix sub "" || false).
    rewrite orb_false_r, prefix_app. split.
    + intros [b Hb]. by exists EmptyString, b.
    + intros [[|? ?] [b Hb]]; [by exists b | discriminate].
  - change (Js.includes (String c s) sub)
      with (String.prefix sub (String c s) || Js.includes s sub).
    rewrite orb_true_iff, prefix_app, IH. split.
    + intros [[b Hb] | (a & b & Hab)].
      * by exists EmptyString, b.
      * exists (String c a), b. simpl. by rewrite Hab.
    + intros ([|d a] & b & Hab).
      * left. by exists b.
      * right. exists a, b. simpl in Hab. congruence.
Qed.

Lemma includes_empty (s : string) : Js.includes s "" = true.
Proof. apply includes_spec. by exists EmptyString, s. Qed.

(** ** Arrays: [filter] and [sort] *)

Section ArrayFacts.
Context {A : Type}.
Implicit Types (h : list (list A)) (l xs : list A) (r : JsArray.ref).

Lemma insert_snoc h xs ys : <[List.length h := ys]> (h ++ [xs]) = h ++ [ys].
Proof.
  replace (List.length h) with (List.length h + 0)%nat by lia.
  by rewrite insert_app_r.
Qed.

Lemma filter_runs f r h xs :
  h !! r = Some xs ->
  JsArray.filter f r h = Some (List.length h, h ++ [List.filter f xs]).
Proof. unfold JsArray.filter. by intros ->. Qed.

Lemma sort_runs cmp r h xs :
  h !! r = Some xs ->
  JsArray.sort cmp r h = Some (r, <[r := JsArray.sorted_by cmp xs]> h).
Proof. unfold JsArray.sort. by intros ->. Qed.

Lemma insert_perm cmp x l : JsArray.insert cmp x l ≡ₚ x :: l.
Proof.
  induction l as [|y l IH]; simpl; [done|].
  destruct (0 <? cmp x y); [|done].
  rewrite IH. apply Permutation_swap.
Qed.

Lemma sorted_by_perm cmp l : JsArray.sorted_by cmp l ≡ₚ l.
Proof.
  induction l as [|x l IH]; simpl; [done|].
  by rewrite insert_perm, IH.
Qed.

(** Filtering after an insertion: the inserted element stays in front
    of the elements of its class, as long as it never compares
    strictly after one of them. *)
Lemma filter_insert cmp (p : A -> bool) x l :
  (forall y, p x = true -> p y = true -> cmp x y <= 0) ->
  List.filter p (JsArray.insert cmp x l) = List.filter p (x :: l).
Proof.
  intros Hp. induction l as [|y l IH]; simpl; [done|].
  destruct (0 <? cmp x y) eqn:Hc; [|done].
  simpl in *. rewrite IH.
  destruct (p x) eqn:Hx, (p y) eqn:Hy; try done.
  apply Z.ltb_lt in Hc. specialize (Hp y eq_refl Hy). lia.
Qed.

(** Stability: within a class of elements that compare equal, the
    sort keeps the original order. *)
Lemma sorted_by_stable cmp (p : A -> bool) l :
  (forall x y, p x = true -> p y = true -> cmp x y <= 0) ->
  List.filter p (JsArray.sorted_by cmp l) = List.filter p l.
Proof.
  intros Hp. induction l as [|x l IH]; simpl; [done|].
  rewrite filter_insert by eauto. simpl. by rewrite IH.
Qed.

Section Order.
Variable cmp : A -> A -> Z.
Hypothesis cmp_total : forall a b, 0 < cmp a b -> cmp b a <= 0.
Hypothesis cmp_trans :
  forall a b c, cmp a b <= 0 -> cmp b c <= 0 -> cmp a c <= 0.

Let le (a b : A) : Prop := cmp a b <= 0.

Lemma insert_sorted x l :
  StronglySorted le l -> StronglySorted le (JsArray.insert cmp x l).
Proof using cmp_total cmp_trans.
  induction 1 as [|y l Hs IH Hy]; simpl.
  - repeat constructor.
  - destruct (0 <? cmp x y) eqn:Hc.
    + apply Z.ltb_lt in Hc. constructor; [done|].
      rewrite insert_perm. constructor; [by apply cmp_total | done].
    + apply Z.ltb_ge in Hc. constructor; [by constructor|].
      constructor; [done|].
      eapply Forall_impl; [exact Hy|]. intros z Hz. by eapply cmp_trans.
Qed.

Lemma sorted_by_sorted l : StronglySorted le (JsArray.sorted_by cmp l).
Proof using cmp_total cmp_trans.
  induction l as [|x l IH]; simpl; [constructor | by apply insert_sorted].
Qed.
End Order.

(** Two lists sorted by a key that agree on every class of equal keys
    are the same list: a stable sort has one possible result. *)
Lemma sorted_classes_unique (key : A -> Z) l1 l2 :
  StronglySorted (fun a b => key a <= key b) l1 ->
  StronglySorted (fun a b => key a <= key b) l2 ->
  (forall t, List.filter (fun a => key a =? t) l1
             = List.filter (fun a => key a =? t) l2) ->
  l1 = l2.
Proof.
  intros Hs1. revert l2.
  induction Hs1 as [|x l1 Hs1 IH Hx]; intros l2 Hs2 Hcl.
  - destruct l2 as [|y l2]; [done|].
    specialize (Hcl (key y)). simpl in Hcl. by rewrite Z.eqb_refl in Hcl.
  - destruct Hs2 as [|y l2 Hs2 Hy].
    { specialize (Hcl (key x)). simpl in Hcl. by rewrite Z.eqb_refl in Hcl. }
    destruct (Z.eq_dec (key y) (key x)) as [Heq | Hne].
    + pose proof (Hcl (key x)) as Hc. simpl in Hc.
      rewrite Z.eqb_refl, (proj2 (Z.eqb_eq _ _) Heq) in Hc.
      injection Hc as <- Hc. f_equal. apply IH; [done|].
      intros t. destruct (Z.eq_dec t (key x)) as [-> | Ht]; [done|].
      specialize (Hcl t). simpl in Hcl.
      by rewrite (proj2 (Z.eqb_neq _ _) (not_eq_sym Ht)) in Hcl.
    + exfalso.
      assert (Hxin : In x (y :: l2)).
      { eapply (proj1 (filter_In (fun a => key a =? key x) x (y :: l2))).
        rewrite <- Hcl. simpl. rewrite Z.eqb_refl. by left. }
      assert (Hyin : In y (x :: l1)).
      { eapply (proj1 (filter_In (fun a => key a =? key y) y (x :: l1))).
        rewrite Hcl. simpl. rewrite Z.eqb_refl. by left. }
      destruct Hxin as [-> | Hxin]; [done|].
      destruct Hyin as [-> | Hyin]; [done|].
      rewrite Forall_forall in Hx, Hy.
      apply list_elem_of_In, Hy in Hxin. apply list_elem_of_In, Hx in Hyin. lia.
Qed.
End ArrayFacts.

Lemma StronglySorted_mono {A} (R S : A -> A -> Prop) (l : list A) :
  (forall a b, R a b -> S a b) -> StronglySorted R l -> StronglySorted S l.
Proof.
  intros HRS. induction 1 as [|x l Hs IH Hx]; constructor; [done|].
  eapply Forall_impl; [exact Hx | auto].
Qed.

Lemma filter_fuse {A} (f g : A -> bool) (l : list A) :
  List.filter g (List.filter f l) = List.filter (fun x => f x && g x) l.
Proof.
  induction l as [|x l IH]; simpl; [done|].
  destruct (f x); simpl; [destruct (g x)|]; by rewrite ?IH.
Qed.

Lemma filter_sublist {A} (f : A -> bool) (l : list A) : sublist (List.filter f l) l.
Proof.
  induction l as [|x l IH]; simpl; [constructor|].
  destruct (f x); by constructor.
Qed.

(** ** The filter pipeline *)

Section PipelineFacts.
Variable toLowerCase : string -> string.
(** Lowering the empty string gives the empty string. *)
Hypothesis toLowerCase_empty : toLowerCase "" = "".


Lemma statusTest_spec c s :
  statusTest c s = true <-> statusFilter c = "all" \/ status s = statusFilter c.
Proof.
  unfold statusTest.
  destruct (String.eqb_spec (statusFilter c) "all") as [He|Hne].
  - split; [by left | done].
  - rewrite String.eqb_eq. split; [by right | by intros [?|?]].
Qed.

Lemma categoryTest_spec c s :
  categoryTest c s = true <->
  categoryFilter c = "all" \/ category s = categoryFilter c.
Proof.
  unfold categoryTest.
  destruct (String.eqb_spec (categoryFilter c) "all") as [He|Hne].
  - split; [by left | done].
  - rewrite String.eqb_eq. split; [by right | by intros [?|?]].
Qed.

Lemma searchTest_spec c s :
  searchTest toLowerCase c s = true <->
  matchesFolded toLowerCase (searchTerm c) (Js.orElse (title s) "") \/
  matchesFolded toLowerCase (searchTerm c) (Js.orElse (description s) "").
Proof.
  unfold searchTest, matchesFolded.
  by rewrite orb_true_iff, !includes_spec.
Qed.

Lemma keeps_spec c s : keeps toLowerCase c s = true <-> satisfies toLowerCase c s.
Proof.
  unfold keeps, satisfies.
  rewrite !andb_true_iff, statusTest_spec, categoryTest_spec, searchTest_spec.
  tauto.
Qed.

(** An empty search term lets every record through. *)
Lemma searchTest_empty c s : searchTerm c = "" -> searchTest toLowerCase c s = true.
Proof using toLowerCase_empty.
  intros Hc. unfold searchTest.
  by rewrite Hc, toLowerCase_empty, includes_empty.
Qed.

Lemma byCreatedAt_inOrder c a b : byCreatedAt c a b <= 0 <-> inOrder c a b.
Proof.
  unfold byCreatedAt, inOrder.
  destruct (String.eqb_spec (sortOrder c) "newest") as [He|Hne]; split.
  - intros Hle. split; [lia | done].
  - intros [Hnew _]. specialize (Hnew He). lia.
  - intros Hle. split; [done | lia].
  - intros [_ Hold]. specialize (Hold Hne). lia.
Qed.

Lemma byCreatedAt_total c a b : 0 < byCreatedAt c a b -> byCreatedAt c b a <= 0.
Proof. unfold byCreatedAt. destruct (sortOrder c =? "newest")%string; lia. Qed.

Lemma byCreatedAt_trans c x y z :
  byCreatedAt c x y <= 0 -> byCreatedAt c y z <= 0 -> byCreatedAt c x z <= 0.
Proof. unfold byCreatedAt. destruct (sortOrder c =? "newest")%string; lia. Qed.

Lemma byCreatedAt_same c t x y :
  (createdAt x =? t) = true -> (createdAt y =? t) = true -> byCreatedAt c x y <= 0.
Proof.
  rewrite !Z.eqb_eq. unfold byCreatedAt.
  destruct (sortOrder c =? "newest")%string; lia.
Qed.

(** The pipeline allocates three arrays behind the store it is given
    and returns the last of them, sorted in place. *)
Lemma filteredSuggestions_runs c (h : list (list Suggestion)) r cache :
  h !! r = Some cache ->
  filteredSuggestions toLowerCase c r h =
  Some ((List.length h + 2)%nat,
        h ++ [List.filter (statusTest c) cache;
              List.filter (categoryTest c) (List.filter (statusTest c) cache);
              filtered toLowerCase c cache]).
Proof.
  intros Hr. unfold filteredSuggestions, JsArray.bind.
  rewrite (filter_runs _ _ _ _ Hr).
  erewrite filter_runs by (by apply list_lookup_middle).
  erewrite filter_runs by (by apply list_lookup_middle).
  erewrite sort_runs by (by apply list_lookup_middle).
  rewrite insert_snoc. unfold filtered, keeps.
  rewrite !filter_fuse, !length_app, <- !(assoc_L (++)). simpl.
  do 2 f_equal. lia.
Qed.

Lemma filtered_classes c cache t :
  List.filter (fun s => createdAt s =? t) (filtered toLowerCase c cache)
  = List.filter (fun s => keeps toLowerCase c s && (createdAt s =? t)) cache.
Proof.
  unfold filtered.
  rewrite sorted_by_stable by (intros x y; apply byCreatedAt_same).
  apply filter_fuse.
Qed.

Lemma filtered_sorted c cache :
  StronglySorted (inOrder c) (filtered toLowerCase c cache).
Proof.
  eapply StronglySorted_mono; [intros a b; apply byCreatedAt_inOrder|].
  apply sorted_by_sorted; [apply byCreatedAt_total | apply byCreatedAt_trans].
Qed.

(** The order and the stability requirement leave one possible output,
    so [filtered] is what any conforming [sort] returns. *)
Lemma filtered_unique c cache out :
  StronglySorted (inOrder c) out ->
  (forall t, List.filter (fun s => createdAt s =? t) out
             = List.filter (fun s => keeps toLowerCase c s && (createdAt s =? t)) cache) ->
  out = filtered toLowerCase c cache.
Proof.
  intros Hsorted Hcl.
  pose (key := fun s => if (sortOrder c =? "newest")%string
                        then - createdAt s else createdAt s).
  assert (Hkey : forall a b, inOrder c a b -> key a <= key b).
  { intros a b [Hnew Hold]. unfold key.
    destruct (String.eqb_spec (sortOrder c) "newest") as [He|Hne].
    - specialize (Hnew He). lia.
    - by apply Hold. }
  assert (Hclass : forall t l,
             List.filter (fun a => key a =? t) l
             = List.filter (fun s => createdAt s =?
                 (if (sortOrder c =? "newest")%string then - t else t)) l).
  { intros t l. apply filter_ext. intros a. unfold key.
    destruct (sortOrder c =? "newest")%string; [|done].
    destruct (Z.eqb_spec (- createdAt a) t), (Z.eqb_spec (createdAt a) (- t)); lia. }
  apply (sorted_classes_unique key).
  - by eapply StronglySorted_mono.
  - eapply StronglySorted_mono; [exact Hkey | apply filtered_sorted].
  - intros t. by rewrite !Hclass, Hcl, filtered_classes.
Qed.

(** C2: for every cache and every setting of the filter controls the
    pipeline returns an array that holds exactly the records of the cache
    passing the status, category and case-insensitive search predicates
    together (an empty search term passes every record), a selection that
    is a subsequence of the cache, ordered by [createdAt], descending for
    [newest] and ascending otherwise, records with equal timestamps in
    cache order; no array that existed before is changed, the cache
    included, and running the pipeline again gives the same sequence. *)
Theorem filteredSuggestions_correct c (h : list (list Suggestion)) r cache :
  h !! r = Some cache ->
  exists r' h' out,
    filteredSuggestions toLowerCase c r h = Some (r', h') /\
    h' !! r' = Some out /\
    out ≡ₚ List.filter (keeps toLowerCase c) cache /\
    sublist (List.filter (keeps toLowerCase c) cache) cache /\
    (forall s, keeps toLowerCase c s = true <-> satisfies toLowerCase c s) /\
    (forall s, s ∈ out <-> s ∈ cache /\ satisfies toLowerCase c s) /\
    (searchTerm c = "" ->
     forall s, matchesFolded toLowerCase (searchTerm c) (Js.orElse (title s) "")) /\
    StronglySorted (inOrder c) out /\
    (forall t, List.filter (fun s => createdAt s =? t) out =
               List.filter (fun s => keeps toLowerCase c s && (createdAt s =? t)) cache) /\
    (forall i xs, h !! i = Some xs -> h' !! i = Some xs) /\
    (exists r'' h'',
        filteredSuggestions toLowerCase c r h' = Some (r'', h'') /\
        h'' !! r'' = Some out /\ h'' !! r = Some cache).
Proof using toLowerCase_empty.
  intros Hr.
  pose proof (filteredSuggestions_runs c h r cache Hr) as Hrun.
  eexists _, _, (filtered toLowerCase c cache).
  split; [exact Hrun|].
  assert (Hkeep : forall i xs, h !! i = Some xs ->
            (h ++ [List.filter (statusTest c) cache;
                   List.filter (categoryTest c) (List.filter (statusTest c) cache);
                   filtered toLowerCase c cache]) !! i = Some xs)
    by (intros i xs Hi; by apply lookup_app_l_Some).
  assert (Hperm : filtered toLowerCase c cache ≡ₚ List.filter (keeps toLowerCase c) cache)
    by apply sorted_by_perm.
  split_and!.
  - rewrite lookup_app_r by lia.
    by replace (length h + 2 - length h)%nat with 2%nat by lia.
  - exact Hperm.
  - apply filter_sublist.
  - apply keeps_spec.
  - intros s. rewrite Hperm, !list_elem_of_In, filter_In.
    by rewrite keeps_spec.
  - intros Hc s. unfold matchesFolded. rewrite Hc, toLowerCase_empty.
    by exists EmptyString, (toLowerCase (Js.orElse (title s) "")).
  - apply filtered_sorted.
  - apply filtered_classes.
  - exact Hkeep.
  - eexists _, _. split; [apply filteredSuggestions_runs; by apply Hkeep|].
    split; [|by apply lookup_app_l_Some, Hkeep].
    rewrite lookup_app_r by lia.
    match goal with |- [_; _; ?x] !! ?n = _ => by replace n with 2%nat by lia end.
Qed.
End PipelineFacts.

(** C2, on the sample cache: the three records ordered newest first, the
    two records of equal age in cache order. *)
Lemma filteredSuggestions_sample :
  [Sample.cache] !! 0%nat = Some Sample.cache /\
  exists r' h' out,
    filteredSuggestions Js.toLowerCaseAscii (controls Sample.student) 0%nat
      [Sample.cache] = Some (r', h') /\
    h' !! r' = Some out /\
    StronglySorted (inOrder (controls Sample.student)) out /\
    h' !! 0%nat = Some Sample.cache.
Proof.
  split; [reflexivity|].
  destruct (filteredSuggestions_correct Js.toLowerCaseAscii eq_refl
              (controls Sample.student) [Sample.cache] 0%nat Sample.cache eq_refl)
    as (r' & h' & out & Hrun & Hout & _ & _ & _ & _ & _ & Hsorted & _ & Hframe & _).
  exists r', h', out. split_and!; [exact Hrun | exact Hout | exact Hsorted |].
  apply Hframe. reflexivity.
Defined.

Example filteredSuggestions_newest :
  filtered Js.toLowerCaseAscii (mkControls "all" "all" "" "newest") Sample.cache
  = [Sample.rec2; Sample.rec1; Sample.rec3].
Proof. reflexivity. Qed.

Example filteredSuggestions_resolved :
  filtered Js.toLowerCaseAscii (mkControls "resolved" "all" "" "newest") Sample.cache
  = [Sample.rec2].
Proof. reflexivity. Qed.

Example filteredSuggestions_search :
  filtered Js.toLowerCaseAscii (mkControls "all" "all" "LibrarY" "oldest") Sample.cache
  = [Sample.rec1; Sample.rec3].
Proof. reflexivity. Qed.

(** ** The notification slot and its timers *)

Lemma showNotification_ui msg ty w :
  ui (showNotification msg ty w)
  = setNotification (Some (mkNotification msg ty)) (ui w).
Proof. reflexivity. Qed.

Lemma showNotification_timeouts msg ty w :
  timeouts (showNotification msg ty w) = timeouts w ++ [now w + 4000].
Proof. reflexivity. Qed.

Lemma showNotification_requests msg ty w :
  requests (showNotification msg ty w) = requests w.
Proof. reflexivity. Qed.

(** A callback that has come due empties the slot. *)
Lemma advance_due e w d :
  d ∈ timeouts w -> d <= now w + e -> notification (ui (advance e w)) = None.
Proof.
  intros Hd Hle. unfold advance.
  destruct (List.filter (fun d => d <=? now w + e) (timeouts w)) as [|x l] eqn:Hf.
  - exfalso. assert (In d []) as []. rewrite <- Hf. apply filter_In.
    split; [by apply list_elem_of_In | by apply Z.leb_le].
  - reflexivity.
Qed.

(** While no callback is due the component is left alone. *)
Lemma advance_idle e w :
  (forall d, d ∈ timeouts w -> now w + e < d) -> ui (advance e w) = ui w.
Proof.
  intros Hall. unfold advance.
  destruct (List.filter (fun d => d <=? now w + e) (timeouts w)) as [|x l] eqn:Hf.
  - reflexivity.
  - exfalso. assert (In x (x :: l)) as Hx by (by left).
    rewrite <- Hf in Hx. apply filter_In in Hx as [Hx Hle].
    apply Z.leb_le in Hle. apply list_elem_of_In, Hall in Hx. lia.
Qed.

Lemma advance_timeouts e w d :
  d ∈ timeouts (advance e w) <-> d ∈ timeouts w /\ now w + e < d.
Proof.
  unfold advance. simpl. rewrite !list_elem_of_In, filter_In.
  by rewrite negb_true_iff, Z.leb_gt.
Qed.

(** C1 as stated fails: with [notify("A")] at 0 s and [notify("B")] at
    1 s, B is on display, and 3 s later, one second before B's own
    deadline, the slot is empty. *)
Lemma second_notification_cleared_early :
  notification (ui Sample.afterAB) = Some Sample.B /\
  now (advance 3000 Sample.afterAB) < now Sample.afterAB + 4000 /\
  notification (ui (advance 3000 Sample.afterAB)) <> Some Sample.B.
Proof. split; [reflexivity|]. split; [reflexivity|]. discriminate. Qed.

(** C1, amended: when [notify(B)] follows [notify(A)] by [d] < 4 s, B
    takes the slot at once, and both calls leave a 4-second timer
    pending, none being cancelled.  The timer armed for A fires at A's
    deadline and empties the slot, [4000 - d] ms after B was shown; if
    no older timer was pending, B is on display until then. *)
Theorem showNotification_twice (w : World) (a ta b tb : string) (d : Z) :
  0 <= d < 4000 ->
  let w2 := showNotification b tb (advance d (showNotification a ta w)) in
  notification (ui w2) = Some (mkNotification b tb) /\
  now w + 4000 ∈ timeouts w2 /\
  now w2 + 4000 ∈ timeouts w2 /\
  (forall e, 4000 - d <= e -> notification (ui (advance e w2)) = None) /\
  (timeouts w = [] ->
   forall e, 0 <= e < 4000 - d ->
   notification (ui (advance e w2)) = Some (mkNotification b tb)).
Proof.
  intros Hd w2.
  assert (Hnow : now w2 = now w + d) by reflexivity.
  assert (HA : now w + 4000 ∈ timeouts w2).
  { unfold w2. rewrite showNotification_timeouts. apply elem_of_app. left.
    apply advance_timeouts. rewrite showNotification_timeouts. split.
    - apply elem_of_app. right. by apply list_elem_of_singleton.
    - change (now (showNotification a ta w)) with (now w). lia. }
  split_and!.
  - reflexivity.
  - exact HA.
  - unfold w2 at 2. rewrite showNotification_timeouts. apply elem_of_app. right.
    by apply list_elem_of_singleton.
  - intros e He. eapply advance_due; [exact HA | lia].
  - intros Hnil e He. rewrite advance_idle; [reflexivity|].
    intros t Ht. unfold w2 in Ht. rewrite showNotification_timeouts in Ht.
    apply elem_of_app in Ht as [Ht | Ht].
    + apply advance_timeouts in Ht as [Ht _].
      rewrite showNotification_timeouts, Hnil in Ht.
      apply list_elem_of_singleton in Ht. lia.
    + apply list_elem_of_singleton in Ht.
      change (now (advance d (showNotification a ta w))) with (now w + d) in Ht.
      lia.
Qed.

Lemma showNotification_twice_sample :
  0 <= 1000 < 4000 /\
  notification (ui (advance 3000 Sample.afterAB)) = None.
Proof.
  split; [lia|].
  apply (showNotification_twice (Sample.world Sample.student)
           "A" "success" "B" "success" 1000); lia.
Defined.

(** ** Loading the cache *)

Lemma loadSuggestions_guard snap reply w :
  email snap = "" -> loadSuggestions snap reply w = w.
Proof. unfold loadSuggestions. by intros ->. Qed.

(** What a load that does call the server leaves in the cache. *)
Lemma loadSuggestions_cache snap reply w :
  email snap <> "" ->
  suggestions (ui (loadSuggestions snap reply w)) =
  match reply with
  | Responded true (Some data) => arrayOrEmpty data
  | _ => []
  end.
Proof.
  intros He. unfold loadSuggestions.
  destruct (email snap) as [|c e]; [done|].
  by destruct reply as [|[] [data|]].
Qed.

(** C5: a load that reaches the server replaces the cache by the fetched
    list, whatever the cache held before; when the call fails (transport
    error, unparsable body or a status that is not 2xx) the cache is
    emptied and an error notification is shown with its timer armed; and a
    second load answered like the first leaves the same cache. *)
Theorem loadSuggestions_replaces (snap : State) (w : World) :
  email snap <> "" ->
  (forall items,
      suggestions (ui (loadSuggestions snap (Responded true (Some (JArray items))) w))
      = items) /\
  (forall reply, failure reply ->
      let w' := loadSuggestions snap reply w in
      suggestions (ui w') = [] /\
      (exists msg, notification (ui w') = Some (mkNotification msg "error")) /\
      timeouts w' = timeouts w ++ [now w + 4000]) /\
  (forall reply,
      suggestions (ui (loadSuggestions snap reply (loadSuggestions snap reply w)))
      = suggestions (ui (loadSuggestions snap reply w))).
Proof.
  intros He. split_and!.
  - intros items. by rewrite loadSuggestions_cache.
  - intros reply Hfail w'. unfold w', loadSuggestions.
    destruct (email snap) as [|c e]; [done|].
    destruct Hfail as [|[]|[body|]]; simpl; eauto.
  - intros reply. by rewrite !loadSuggestions_cache.
Qed.

Lemma loadSuggestions_replaces_sample :
  email Sample.student <> "" /\
  suggestions (ui (loadSuggestions Sample.student
                     (Responded true (Some (JArray [Sample.rec2])))
                     (Sample.world Sample.student))) = [Sample.rec2] /\
  suggestions (ui (loadSuggestions Sample.student Rejected
                     (Sample.world Sample.student))) = [].
Proof.
  assert (He : email Sample.student <> "") by discriminate.
  split; [exact He|].
  destruct (loadSuggestions_replaces Sample.student (Sample.world Sample.student) He)
    as (Hok & Hfail & _).
  split; [apply Hok|].
  apply (Hfail Rejected network_failure).
Defined.

(** C10: a 2xx answer whose body is not an array empties the cache and
    shows nothing: the notification slot and the pending timers are as
    they were. *)
Theorem loadSuggestions_not_array (snap : State) (w : World) :
  email snap <> "" ->
  let w' := loadSuggestions snap (Responded true (Some JOther)) w in
  suggestions (ui w') = [] /\
  notification (ui w') = notification (ui w) /\
  timeouts w' = timeouts w.
Proof.
  intros He w'. unfold w', loadSuggestions.
  by destruct (email snap) as [|c e].
Qed.

Lemma loadSuggestions_not_array_sample :
  email Sample.student <> "" /\
  suggestions (ui (loadSuggestions Sample.student (Responded true (Some JOther))
                     (Sample.world Sample.student))) = [] /\
  notification (ui (loadSuggestions Sample.student (Responded true (Some JOther))
                      (Sample.world Sample.student))) = None.
Proof.
  assert (He : email Sample.student <> "") by discriminate.
  split; [exact He|].
  destruct (loadSuggestions_not_array Sample.student (Sample.world Sample.student) He)
    as (Hcache & Hnote & _).
  split; [exact Hcache | exact Hnote].
Defined.

(** ** Deleting *)

(** C8: when the confirmation prompt is declined [handleDelete] changes
    nothing: the cache, the list of calls made to [fetch], the
    notification slot and the pending timers are those of before. *)
Theorem handleDelete_declined (snap : State) (id : string)
    (reply : Fetch JsonObject) (w : World) :
  handleDelete snap id false reply w = w.
Proof. reflexivity. Qed.

Lemma handleDelete_cache snap id body w :
  suggestions (ui (handleDelete snap id true (Responded true body) w))
  = List.filter (fun s => negb (_id s =? id)%string) (suggestions (ui w)).
Proof. unfold handleDelete. simpl. by destruct (viewing snap id). Qed.

Lemma handleDelete_view snap id body w :
  viewSuggestion (ui (handleDelete snap id true (Responded true body) w))
  = if viewing snap id then None else viewSuggestion (ui w).
Proof. unfold handleDelete. simpl. by destruct (viewing snap id). Qed.

Lemma filter_other_ids id (l : list Suggestion) :
  (forall x, x ∈ l -> _id x <> id) ->
  List.filter (fun s => negb (_id s =? id)%string) l = l.
Proof.
  induction l as [|x l IH]; intros Hl; simpl; [done|].
  destruct (String.eqb_spec (_id x) id) as [He|Hne]; simpl.
  - exfalso. eapply Hl; [by left | done].
  - rewrite IH; [done|]. intros y Hy. apply Hl. by right.
Qed.

(** When the selection is still the one of the render in which the
    delete was started: a successful delete keeps, in order, the records
    of the cache whose id differs from [id]; when [id] names one record
    of the cache, that record and no other is gone.  The selection is
    cleared when it shows a record with that id and is left as it is
    otherwise.  A failed delete leaves cache and selection as they
    were. *)
Theorem handleDelete_removes (snap : State) (id : string) (w : World) :
  viewSuggestion snap = viewSuggestion (ui w) ->
  (forall body,
      let w' := handleDelete snap id true (Responded true body) w in
      sublist (suggestions (ui w')) (suggestions (ui w)) /\
      (forall s, s ∈ suggestions (ui w') <-> s ∈ suggestions (ui w) /\ _id s <> id) /\
      (forall l1 s l2,
          suggestions (ui w) = l1 ++ s :: l2 -> _id s = id ->
          (forall x, x ∈ l1 ++ l2 -> _id x <> id) ->
          suggestions (ui w') = l1 ++ l2) /\
      (forall v, viewSuggestion (ui w) = Some v -> _id v = id ->
                 viewSuggestion (ui w') = None) /\
      (forall v, viewSuggestion (ui w) = Some v -> _id v <> id ->
                 viewSuggestion (ui w') = Some v) /\
      (viewSuggestion (ui w) = None -> viewSuggestion (ui w') = None)) /\
  (forall reply,
      reply = Rejected \/ (exists body, reply = Responded false body) ->
      suggestions (ui (handleDelete snap id true reply w)) = suggestions (ui w) /\
      viewSuggestion (ui (handleDelete snap id true reply w)) = viewSuggestion (ui w)).
Proof.
  intros Hview. split.
  - intros body w'. unfold w'.
    rewrite handleDelete_cache, handleDelete_view. unfold viewing. rewrite Hview.
    split_and!.
    + apply filter_sublist.
    + intros s. rewrite !list_elem_of_In, filter_In, negb_true_iff.
      by rewrite String.eqb_neq.
    + intros l1 s l2 -> Hs Hrest.
      rewrite List.filter_app. simpl.
      rewrite (proj2 (String.eqb_eq _ _) Hs). simpl.
      rewrite <- List.filter_app. by apply filter_other_ids.
    + intros v -> Hv. by rewrite (proj2 (String.eqb_eq _ _) Hv).
    + intros v -> Hv. by rewrite (proj2 (String.eqb_neq _ _) Hv).
    + by intros ->.
  - intros reply [-> | [[body|] ->]]; by split.
Qed.

(** Why the theorem speaks of a handler that saw the current selection:
    a delete started while nothing was selected does not clear a
    selection made while the call was under way. *)
Example handleDelete_stale_selection :
  viewSuggestion
    (ui (handleDelete (setViewSuggestion None Sample.student) "1" true
           (Responded true None) (Sample.world Sample.student)))
  = Some Sample.rec1.
Proof. reflexivity. Qed.

Lemma handleDelete_removes_sample :
  viewSuggestion Sample.student = viewSuggestion (ui (Sample.world Sample.student)) /\
  suggestions (ui (handleDelete Sample.student "1" true (Responded true None)
                     (Sample.world Sample.student)))
  = [Sample.rec2; Sample.rec3] /\
  viewSuggestion (ui (handleDelete Sample.student "1" true (Responded true None)
                        (Sample.world Sample.student))) = None.
Proof.
  split; [reflexivity|].
  destruct (handleDelete_removes Sample.student "1" (Sample.world Sample.student)
              eq_refl) as [Hok _].
  destruct (Hok None) as (_ & _ & Hcache & Hclear & _).
  split.
  - apply (Hcache [] Sample.rec1 [Sample.rec2; Sample.rec3]); [reflexivity..|].
    intros x Hx. apply list_elem_of_In in Hx.
    destruct Hx as [<- | [<- | []]]; discriminate.
  - by apply (Hclear Sample.rec1).
Defined.

(** C6 at its failing input: a delete of [id] is started while nothing
    is selected; before it is answered the record is opened in the
    detail view; then the delete succeeds.  The cache update works on the
    current cache and takes the record out, but the test for the
    selection reads the closure's [viewSuggestion], which is still
    empty: the selection keeps showing the deleted record. *)
Theorem delete_leaves_stale_selection (w : World) (id : string)
    (data : JsonObject) (body : option JsonObject) :
  viewSuggestion (ui w) = None -> _id (asSuggestion data) = id ->
  let w1 := handleView (ui w) id (Responded true (Some data)) w in
  let w2 := handleDelete (ui w) id true (Responded true body) w1 in
  viewSuggestion (ui w1) = Some (asSuggestion data) /\
  (forall s, s ∈ suggestions (ui w2) -> _id s <> id) /\
  (exists v, viewSuggestion (ui w2) = Some v /\ _id v = id).
Proof.
  intros Hnone Hid w1 w2. split; [reflexivity|]. split.
  - intros s. unfold w2. rewrite handleDelete_cache, list_elem_of_In, filter_In.
    intros [_ Hs]. by apply negb_true_iff, String.eqb_neq in Hs.
  - exists (asSuggestion data). split; [|exact Hid].
    unfold w2. rewrite handleDelete_view. unfold viewing. by rewrite Hnone.
Qed.

Lemma delete_leaves_stale_selection_sample :
  let w := Sample.world (setViewSuggestion None Sample.student) in
  let w2 := handleDelete (ui w) "1" true (Responded true None)
              (handleView (ui w) "1"
                 (Responded true (Some (mkJsonObject Sample.rec1 None))) w) in
  viewSuggestion (ui w) = None /\
  suggestions (ui w2) = [Sample.rec2; Sample.rec3] /\
  exists v, viewSuggestion (ui w2) = Some v /\ _id v = "1".
Proof.
  intros w w2. split; [reflexivity|]. split; [reflexivity|].
  apply (delete_leaves_stale_selection w "1" (mkJsonObject Sample.rec1 None) None);
    reflexivity.
Defined.

(** ** Changing a status *)

Lemma handleStatusChange_view snap id st updated w :
  viewSuggestion (ui (handleStatusChange snap id st (Responded true (Some updated)) w))
  = if viewing snap id then Some (asSuggestion updated) else viewSuggestion (ui w).
Proof. unfold handleStatusChange. simpl. by destruct (viewing snap id). Qed.

Lemma handleStatusChange_cache snap id st updated w :
  suggestions (ui (handleStatusChange snap id st (Responded true (Some updated)) w))
  = map (fun s => if (_id s =? id)%string then asSuggestion updated else s)
        (suggestions (ui w)).
Proof. unfold handleStatusChange. simpl. by destruct (viewing snap id). Qed.

(** C4 as stated fails: the message shown after record 1 was resolved is
    not [Status updated to resolved]. *)
Lemma status_message_is_quoted :
  message <$> notification
    (ui (handleStatusChange Sample.hod "1" "resolved"
           (Responded true (Some (mkJsonObject Sample.rec1_resolved None)))
           (Sample.world Sample.hod)))
  <> Some "Status updated to resolved".
Proof. discriminate. Qed.

(** C4, amended: a successful status change has sent the body
    [{status, updatedBy}] with [updatedBy] [Principal] for a principal
    and [HOD] otherwise, has put the returned record in the place of
    every cache entry with that id, the other entries staying where they
    are, and shows a success notification whose message is [Status
    updated to ] followed by the status name between double quotes. *)
Theorem handleStatusChange_success (snap : State) (id newStatus : string)
    (updated : JsonObject) (w : World) :
  let w' := handleStatusChange snap id newStatus (Responded true (Some updated)) w in
  requests w' =
    requests w ++ [PatchAdminSuggestion id newStatus
                     (if isPrincipal snap then "Principal" else "HOD")] /\
  List.length (suggestions (ui w')) = List.length (suggestions (ui w)) /\
  (forall i s, suggestions (ui w) !! i = Some s ->
     (_id s = id -> suggestions (ui w') !! i = Some (asSuggestion updated)) /\
     (_id s <> id -> suggestions (ui w') !! i = Some s)) /\
  notification (ui w') =
    Some (mkNotification
            ("Status updated to " ++ Js.dquote ++ newStatus ++ Js.dquote)%string
            "success").
Proof.
  intros w'. unfold w'. rewrite handleStatusChange_cache. split_and!.
  - unfold handleStatusChange. simpl. by destruct (viewing snap id).
  - apply length_map.
  - intros i s Hi. rewrite list_lookup_fmap, Hi. simpl. split; intros Hs.
    + by rewrite (proj2 (String.eqb_eq _ _) Hs).
    + by rewrite (proj2 (String.eqb_neq _ _) Hs).
  - unfold handleStatusChange. simpl. by destruct (viewing snap id).
Qed.

Example handleStatusChange_resolved :
  let w' := handleStatusChange Sample.hod "1" "resolved"
              (Responded true (Some (mkJsonObject Sample.rec1_resolved None)))
              (Sample.world Sample.hod) in
  requests w' = [PatchAdminSuggestion "1" "resolved" "HOD"] /\
  map status (suggestions (ui w')) = ["resolved"; "resolved"; "pending"] /\
  message <$> notification (ui w')
  = Some ("Status updated to " ++ Js.dquote ++ "resolved" ++ Js.dquote)%string.
Proof. by split_and!. Qed.

(** When the selection is still the one of the render in which the
    status change was started: after a successful status change for
    [id] the selection is the returned record when it showed a record
    with that id, and is what it was when it showed another record or
    none. *)
Theorem handleStatusChange_selection (snap : State) (id newStatus : string)
    (updated : JsonObject) (w : World) :
  viewSuggestion snap = viewSuggestion (ui w) ->
  let w' := handleStatusChange snap id newStatus (Responded true (Some updated)) w in
  (forall v, viewSuggestion (ui w) = Some v -> _id v <> id ->
             viewSuggestion (ui w') = Some v) /\
  (viewSuggestion (ui w) = None -> viewSuggestion (ui w') = None) /\
  (forall v, viewSuggestion (ui w) = Some v -> _id v = id ->
             viewSuggestion (ui w') = Some (asSuggestion updated)).
Proof.
  intros Hview w'. unfold w'. rewrite handleStatusChange_view.
  unfold viewing. rewrite Hview. split_and!.
  - intros v -> Hv. by rewrite (proj2 (String.eqb_neq _ _) Hv).
  - by intros ->.
  - intros v -> Hv. by rewrite (proj2 (String.eqb_eq _ _) Hv).
Qed.

Lemma handleStatusChange_selection_sample :
  viewSuggestion Sample.hod = viewSuggestion (ui (Sample.world Sample.hod)) /\
  viewSuggestion
    (ui (handleStatusChange Sample.hod "1" "resolved"
           (Responded true (Some (mkJsonObject Sample.rec1_resolved None)))
           (Sample.world Sample.hod))) = Some Sample.rec2.
Proof.
  split; [reflexivity|].
  destruct (handleStatusChange_selection Sample.hod "1" "resolved"
              (mkJsonObject Sample.rec1_resolved None) (Sample.world Sample.hod)
              eq_refl) as (Hother & _).
  apply Hother; [reflexivity | discriminate].
Defined.

(** C7 at its failing input: the test for the selection reads the
    [viewSuggestion] of the render in which the status change was
    started.  Started while the detail view showed the record with [id],
    and answered after the view was closed and another record opened, it
    puts the returned record in the place of that other record.  Started
    while nothing was selected, and answered after the record with [id]
    was opened, it leaves the selection showing the record as it was
    before the change. *)
Theorem status_answer_and_stale_selection (w : World) (id newStatus : string)
    (updated : JsonObject) :
  (forall v id2 other,
      viewSuggestion (ui w) = Some v -> _id v = id ->
      _id (asSuggestion other) = id2 -> id2 <> id ->
      let w1 := handleView (ui (closeView w)) id2 (Responded true (Some other))
                  (closeView w) in
      let w2 := handleStatusChange (ui w) id newStatus
                  (Responded true (Some updated)) w1 in
      (exists o, viewSuggestion (ui w1) = Some o /\ _id o <> id) /\
      viewSuggestion (ui w2) = Some (asSuggestion updated)) /\
  (forall data,
      viewSuggestion (ui w) = None -> _id (asSuggestion data) = id ->
      let w1 := handleView (ui w) id (Responded true (Some data)) w in
      let w2 := handleStatusChange (ui w) id newStatus
                  (Responded true (Some updated)) w1 in
      (exists o, viewSuggestion (ui w1) = Some o /\ _id o = id) /\
      viewSuggestion (ui w2) = Some (asSuggestion data)).
Proof.
  split.
  - intros v id2 other Hv Hid Hother Hne w1 w2. split.
    + exists (asSuggestion other). split; [reflexivity | congruence].
    + unfold w2. rewrite handleStatusChange_view. unfold viewing.
      by rewrite Hv, (proj2 (String.eqb_eq _ _) Hid).
  - intros data Hnone Hid w1 w2. split.
    + exists (asSuggestion data). by split.
    + unfold w2. rewrite handleStatusChange_view. unfold viewing.
      by rewrite Hnone.
Qed.

Lemma status_answer_and_stale_selection_sample :
  let shown := setViewSuggestion (Some Sample.rec1) Sample.hod in
  let w := Sample.world shown in
  let w1 := handleView (ui (closeView w)) "2"
              (Responded true (Some (mkJsonObject Sample.rec2 None))) (closeView w) in
  viewSuggestion (ui w1) = Some Sample.rec2 /\
  viewSuggestion
    (ui (handleStatusChange (ui w) "1" "resolved"
           (Responded true (Some (mkJsonObject Sample.rec1_resolved None))) w1))
  = Some Sample.rec1_resolved.
Proof.
  intros shown w w1. split; [reflexivity|].
  destruct (status_answer_and_stale_selection w "1" "resolved"
              (mkJsonObject Sample.rec1_resolved None)) as [Hopen _].
  by destruct (Hopen Sample.rec1 "2" (mkJsonObject Sample.rec2 None)
                 eq_refl eq_refl eq_refl ltac:(discriminate)) as [_ Hsel].
Defined.

(** ** The session *)

(** The identity cells after [handleLogout]. *)
Lemma handleLogout_session w :
  loggedIn (ui (handleLogout w)) = false /\ sessionEmpty (ui (handleLogout w)).
Proof. by repeat split. Qed.

Lemma handleLogout_clears w :
  suggestions (ui (handleLogout w)) = [] /\
  viewSuggestion (ui (handleLogout w)) = None.
Proof. by split. Qed.

(** The guard of [loadSuggestions] holds after a logout. *)
Lemma load_after_logout w reply :
  loadSuggestions (ui (handleLogout w)) reply (handleLogout w) = handleLogout w.
Proof. by apply loadSuggestions_guard. Qed.

(** Neither the delete nor the status call is given the email. *)
Lemma delete_after_logout w id reply r :
  r ∈ requests (handleDelete (ui (handleLogout w)) id true reply (handleLogout w)) ->
  r ∈ requests w \/ carriesIdentity r = false.
Proof.
  unfold handleDelete. simpl.
  destruct reply as [|[] [body|]]; simpl;
    rewrite elem_of_app, list_elem_of_singleton; intros [?| ->]; auto.
Qed.

Lemma statusChange_after_logout w id st reply r :
  r ∈ requests (handleStatusChange (ui (handleLogout w)) id st reply (handleLogout w)) ->
  r ∈ requests w \/ carriesIdentity r = false.
Proof.
  unfold handleStatusChange. simpl.
  destruct reply as [|[] [body|]]; simpl;
    rewrite elem_of_app, list_elem_of_singleton; intros [?| ->]; auto.
Qed.

(** The guard reads the email of the render the closure was created in:
    a submit that was in flight when the user logged out reloads the list
    with the identity of before. *)
Lemma stale_load_after_logout snap reply w :
  email snap <> "" ->
  requests (loadSuggestions snap reply (handleLogout w))
  = requests w ++ [if isAdmin snap then GetAdminSuggestions (email snap)
                   else GetStudentSuggestions (email snap)].
Proof.
  intros He. unfold loadSuggestions.
  destruct (email snap) as [|c e]; [done|].
  by destruct reply as [|[] [data|]].
Qed.

(** Only a login and a logout write the session cells. *)
Lemma showNotification_session msg ty w :
  session (ui (showNotification msg ty w)) = session (ui w).
Proof. reflexivity. Qed.

Lemma loadSuggestions_session snap reply w :
  session (ui (loadSuggestions snap reply w)) = session (ui w).
Proof.
  unfold loadSuggestions. destruct (email snap); [done|].
  by destruct reply as [|[] [data|]].
Qed.

Lemma onSubmit_halves snap data reply reload w :
  onSubmit snap data reply reload w
  = onSubmitDone snap reply reload (onSubmitStart snap data w).
Proof. reflexivity. Qed.

(** C3 at its failing input: a student submits the form and logs out
    before the POST is answered.  The logout empties the session, and
    when the POST is answered 2xx the submit handler goes on in the
    closure of its render: the guard of [loadSuggestions] sees the email
    of before, the list is asked for with that email after the logout,
    and an array answer fills the cache of the logged-out component. *)
Theorem submit_in_flight_reloads_after_logout (w : World) (data : Form)
    (body : option JsonObject) (reload : Fetch Json) :
  loggedIn (ui w) = true -> isAdmin (ui w) = false -> email (ui w) <> "" ->
  let w1 := onSubmitStart (ui w) data w in
  let w2 := handleLogout w1 in
  let w3 := onSubmitDone (ui w) (Responded true body) reload w2 in
  requests w2 = requests w ++ [PostSuggestion (email (ui w)) data] /\
  loggedIn (ui w2) = false /\ sessionEmpty (ui w2) /\
  requests w3 = requests w2 ++ [GetStudentSuggestions (email (ui w))] /\
  carriesIdentity (GetStudentSuggestions (email (ui w))) = true /\
  loggedIn (ui w3) = false /\
  (forall items, reload = Responded true (Some (JArray items)) ->
                 suggestions (ui w3) = items).
Proof.
  intros Hin Hadm He w1 w2 w3.
  assert (Hlist : requests w3 = requests w2 ++ [GetStudentSuggestions (email (ui w))]).
  { unfold w3, onSubmitDone.
    change (requests (showNotification "Suggestion submitted!" "success"
                        (loadSuggestions (ui w) reload w2)))
      with (requests (loadSuggestions (ui w) reload w2)).
    unfold w2. rewrite (stale_load_after_logout (ui w) reload w1 He).
    by rewrite Hadm. }
  split_and!; try done.
  - pose proof (loadSuggestions_session (ui w) reload w2) as Hs.
    unfold session in Hs. injection Hs as Hl _ _ _ _. exact Hl.
  - intros items ->. unfold w3, onSubmitDone.
    change (suggestions (ui (showNotification "Suggestion submitted!" "success"
              (loadSuggestions (ui w) (Responded true (Some (JArray items))) w2))))
      with (suggestions (ui (loadSuggestions (ui w)
              (Responded true (Some (JArray items))) w2))).
    by rewrite loadSuggestions_cache.
Qed.

Lemma submit_in_flight_sample :
  let student := handleCredentialResponse (Some "token")
                   (Responded true
                      (Some (mkLoginReply "a@ybit.ac.in" None None None None)))
                   initialWorld in
  loggedIn (ui student) = true /\
  requests
    (onSubmitDone (ui student) (Responded true None)
       (Responded true (Some (JArray [Sample.rec1])))
       (handleLogout (onSubmitStart (ui student) (mkForm "other" "t" "d") student)))
  = [PostAuthGoogle "token"; PostSuggestion "a@ybit.ac.in" (mkForm "other" "t" "d");
     GetStudentSuggestions "a@ybit.ac.in"] /\
  suggestions
    (ui (onSubmitDone (ui student) (Responded true None)
           (Responded true (Some (JArray [Sample.rec1])))
           (handleLogout (onSubmitStart (ui student) (mkForm "other" "t" "d") student))))
  = [Sample.rec1].
Proof.
  intros student.
  assert (Hin : loggedIn (ui student) = true) by reflexivity.
  assert (Hadm : isAdmin (ui student) = false) by reflexivity.
  assert (He : email (ui student) <> "") by discriminate.
  split; [exact Hin|].
  destruct (submit_in_flight_reloads_after_logout student (mkForm "other" "t" "d")
              None (Responded true (Some (JArray [Sample.rec1]))) Hin Hadm He)
    as (Hpost & _ & _ & Hlist & _ & _ & Hcache).
  split.
  - rewrite Hlist, Hpost. reflexivity.
  - by apply Hcache.
Defined.

Lemma handleCredentialResponse_failed credential reply w :
  loginFails credential reply ->
  session (ui (handleCredentialResponse credential reply w)) = session (ui w).
Proof.
  unfold loginFails, handleCredentialResponse.
  destruct credential as [[|c token]|]; simpl; [done| |done].
  intros [Hc | Hfail]; [done|].
  by destruct Hfail as [|[]|[body|]].
Qed.

Lemma session_invariant snap e w :
  session (ui (step snap e w)) = session (ui w) \/
  loggedIn (ui (step snap e w)) = true \/
  (loggedIn (ui (step snap e w)) = false /\ sessionEmpty (ui (step snap e w))).
Proof.
  destruct e; cbn [step].
  - unfold handleCredentialResponse.
    destruct credential as [[|c token]|]; [by left| |by left].
    destruct reply as [|[] [result|]]; [by left|by right; left|by left..].
  - left. apply loadSuggestions_session.
  - left.
    transitivity (session (ui (loadSuggestions snap reply (upd (setLoading true) w))));
      [reflexivity | by rewrite loadSuggestions_session].
  - left. unfold handleDelete. destruct confirmed; [|done]. simpl.
    destruct reply as [|[] [body|]]; try done; by destruct (viewing snap id).
  - left. unfold handleStatusChange.
    destruct reply as [|[] [body|]]; try done. by destruct (viewing snap id).
  - left. unfold handleView. by destruct reply as [|[] [body|]].
  - by left.
  - left. unfold onSubmit.
    destruct reply as [|[] [body|]]; try done;
      exact (loadSuggestions_session snap reload
               (fetch (PostSuggestion (email snap) data) w)).
  - by left.
  - by left.
  - by left.
  - by left.
  - right; right. apply handleLogout_session.
  - left. unfold advance.
    by destruct (List.filter _ (timeouts w)).
Qed.

Lemma step_sessionInvariant snap e w :
  sessionInvariant w -> sessionInvariant (step snap e w).
Proof.
  unfold sessionInvariant, sessionEmpty. intros Hw Hout.
  destruct (session_invariant snap e w) as [Heq | [Hin | [_ Hempty]]].
  - unfold session in Heq. injection Heq as H1 H2 H3 H4 H5.
    rewrite H2, H3, H4, H5. apply Hw. by rewrite <- H1.
  - congruence.
  - exact Hempty.
Qed.

Lemma run_sessionInvariant tr : run tr -> Forall sessionInvariant tr.
Proof.
  induction 1 as [|w tr old e Hrun IH Hold].
  - repeat constructor.
  - constructor; [|exact IH].
    apply step_sessionInvariant. by inversion IH.
Qed.

Lemma loginLogoutRun_run : run loginLogoutRun.
Proof.
  unfold loginLogoutRun. cbv zeta.
  apply run_step; [|by left].
  apply (run_step initialWorld [] initialWorld); [apply run_start | by left].
Qed.

(** C9: in every state the component can reach, a session that is not
    authenticated holds no identity: email, [isAdmin], [isPrincipal] and
    department have their initial values.  A failed login (no credential,
    transport or parse error, or a status that is not 2xx) leaves the
    session cells as they were, hence unauthenticated and empty, and
    [handleLogout] brings them back to that state. *)
Theorem session_never_partial (w : World) :
  reachable w ->
  (loggedIn (ui w) = false -> sessionEmpty (ui w)) /\
  (forall credential reply,
      loginFails credential reply ->
      let w' := handleCredentialResponse credential reply w in
      session (ui w') = session (ui w) /\
      (loggedIn (ui w) = false -> loggedIn (ui w') = false /\ sessionEmpty (ui w'))) /\
  (loggedIn (ui (handleLogout w)) = false /\ sessionEmpty (ui (handleLogout w))).
Proof.
  intros [tr Hrun].
  assert (Hinv : sessionInvariant w).
  { apply run_sessionInvariant in Hrun. by inversion Hrun. }
  split_and!.
  - exact Hinv.
  - intros credential reply Hfail w'.
    pose proof (handleCredentialResponse_failed credential reply w Hfail) as Heq.
    split; [exact Heq|]. intros Hout.
    assert (Hinv' : sessionInvariant w').
    { change w' with (step (ui w) (CredentialResponse credential reply) w).
      by apply step_sessionInvariant. }
    unfold session in Heq. injection Heq as Hl _ _ _ _.
    fold w' in Hl. rewrite Hout in Hl. split; [exact Hl | by apply Hinv'].
  - apply handleLogout_session.
  - apply handleLogout_session.
Qed.

Lemma session_never_partial_sample :
  reachable (hd initialWorld loginLogoutRun) /\
  loggedIn (ui (hd initialWorld loginLogoutRun)) = false /\
  sessionEmpty (ui (hd initialWorld loginLogoutRun)).
Proof.
  assert (Hreach : reachable (hd initialWorld loginLogoutRun)).
  { eexists. exact loginLogoutRun_run. }
  split; [exact Hreach|]. split; [reflexivity|].
  by apply (session_never_partial _ Hreach).
Defined.

(** * Further properties of the handlers *)

(** ** Every notification expires *)

Lemma fresh_fetch r w : timersFresh w -> timersFresh (fetch r w).
Proof. by intros [H1 H2]. Qed.

(** A state update that shows no new notification keeps the timers
    fresh. *)
Lemma fresh_upd f w :
  (forall s, notification (f s) = notification s \/ notification (f s) = None) ->
  timersFresh w -> timersFresh (upd f w).
Proof.
  intros Hf [H1 H2]. split; [exact H1|]. simpl. intros Hn. apply H2.
  destruct (Hf (ui w)) as [He | He]; congruence.
Qed.

Lemma fresh_show msg ty w : timersFresh w -> timersFresh (showNotification msg ty w).
Proof.
  intros [H1 H2]. split.
  - intros d. rewrite showNotification_timeouts, elem_of_app, list_elem_of_singleton.
    change (now (showNotification msg ty w)) with (now w).
    intros [Hd | ->]; [by apply H1 | lia].
  - intros _. rewrite showNotification_timeouts. by destruct (timeouts w).
Qed.

Lemma fresh_advance dt w : 0 <= dt -> timersFresh w -> timersFresh (advance dt w).
Proof.
  intros Hdt [H1 H2]. split.
  - intros d Hd. apply advance_timeouts in Hd as [Hd Hlt].
    apply H1 in Hd. change (now (advance dt w)) with (now w + dt). lia.
  - unfold advance. simpl.
    destruct (List.filter (fun d => d <=? now w + dt) (timeouts w)) as [|x l] eqn:Hdue;
      [|done].
    intros Hn. specialize (H2 Hn).
    destruct (timeouts w) as [|d ds] eqn:Ht; [done|].
    assert (Hd : In d (d :: ds)) by (by left).
    intros Hrest.
    destruct (d <=? now w + dt) eqn:Hle.
    + assert (In d []) as []. rewrite <- Hdue. apply filter_In. by split.
    + assert (In d []) as []. rewrite <- Hrest. apply filter_In. split; [done|].
      by rewrite Hle.
Qed.

Lemma fresh_load snap reply w :
  timersFresh w -> timersFresh (loadSuggestions snap reply w).
Proof.
  intros Hw. unfold loadSuggestions. destruct (email snap); [done|].
  destruct reply as [|[] [data|]];
    repeat first [apply fresh_show | apply fresh_fetch
                 | apply fresh_upd; [intros s; by left|] | exact Hw].
Qed.

Lemma fresh_step snap e w : timersFresh w -> timersFresh (step snap e w).
Proof.
  intros Hw. destruct e; cbn [step].
  - unfold handleCredentialResponse.
    destruct credential as [[|c token]|]; [by apply fresh_show| |by apply fresh_show].
    destruct reply as [|[] [result|]];
      repeat first [apply fresh_show | apply fresh_fetch
                   | apply fresh_upd; [intros s; by left|] | exact Hw].
  - by apply fresh_load.
  - unfold handleRefresh.
    apply fresh_show, fresh_upd; [intros s; by left|].
    apply fresh_load, fresh_upd; [intros s; by left | exact Hw].
  - unfold handleDelete. destruct confirmed; [|exact Hw]. cbn [negb].
    destruct reply as [|[] [body|]]; try destruct (viewing snap id);
      repeat first [apply fresh_show | apply fresh_fetch
                   | apply fresh_upd; [intros s; by left|] | exact Hw].
  - unfold handleStatusChange.
    destruct reply as [|[] [body|]]; try destruct (viewing snap id);
      repeat first [apply fresh_show | apply fresh_fetch
                   | apply fresh_upd; [intros s; by left|] | exact Hw].
  - unfold handleView.
    destruct reply as [|[] [body|]];
      repeat first [apply fresh_show | apply fresh_fetch
                   | apply fresh_upd; [intros s; by left|] | exact Hw].
  - apply fresh_upd; [intros s; by left | exact Hw].
  - unfold onSubmit.
    destruct reply as [|[] [body|]];
      repeat first [apply fresh_show | apply fresh_load | apply fresh_fetch | exact Hw].
  - apply fresh_upd; [intros s; by left | exact Hw].
  - apply fresh_upd; [intros s; by left | exact Hw].
  - apply fresh_upd; [intros s; by left | exact Hw].
  - apply fresh_upd; [intros s; by left | exact Hw].
  - unfold handleLogout. apply fresh_show.
    apply fresh_upd; [intros s; by right|].
    repeat (apply fresh_upd; [intros s; by left|]). exact Hw.
  - apply fresh_advance; [lia | exact Hw].
Qed.

Lemma run_timersFresh tr : run tr -> Forall timersFresh tr.
Proof.
  induction 1 as [|w tr old e Hrun IH Hold].
  - constructor; [|constructor].
    split; [|done]. intros d Hd. by apply elem_of_nil in Hd.
  - constructor; [|exact IH]. apply fresh_step. by inversion IH.
Qed.

(** X1: In every state the component can reach, each pending timer falls due
    within the next four seconds and a notification on display has a
    timer pending: four seconds without further events empty the slot
    and leave no timer behind. *)
Theorem notification_expires (w : World) :
  reachable w ->
  timersFresh w /\
  notification (ui (advance 4000 w)) = None /\
  timeouts (advance 4000 w) = [].
Proof.
  intros [tr Hrun].
  assert (Hw : timersFresh w).
  { apply run_timersFresh in Hrun. by inversion Hrun. }
  split; [exact Hw|]. destruct Hw as [H1 H2]. split.
  - destruct (notification (ui w)) as [n|] eqn:Hn.
    + destruct (timeouts w) as [|d ds] eqn:Ht; [by destruct H2; rewrite ?Hn|].
      apply (advance_due 4000 w d); [rewrite Ht; by left|].
      assert (Hd : d ∈ d :: ds) by (by left).
      apply H1 in Hd. lia.
    + unfold advance. simpl.
      by destruct (List.filter _ (timeouts w)).
  - unfold advance. simpl.
    destruct (List.filter (fun d => negb (d <=? now w + 4000)) (timeouts w))
      as [|d ds] eqn:Hrest; [done|].
    assert (Hd : In d (d :: ds)) by (by left).
    rewrite <- Hrest in Hd. apply filter_In in Hd as [Hd Hgt].
    apply list_elem_of_In, H1 in Hd.
    apply negb_true_iff, Z.leb_gt in Hgt. lia.
Qed.

Lemma notification_expires_sample :
  reachable (hd initialWorld loginLogoutRun) /\
  notification (ui (hd initialWorld loginLogoutRun)) <> None /\
  notification (ui (advance 4000 (hd initialWorld loginLogoutRun))) = None.
Proof.
  assert (Hreach : reachable (hd initialWorld loginLogoutRun)).
  { eexists. exact loginLogoutRun_run. }
  split; [exact Hreach|]. split; [discriminate|].
  by apply (notification_expires _ Hreach).
Defined.

(** ** Refreshing *)

(** X2: A refresh always ends with the busy flag down and the message
    [Suggestions refreshed], whatever the load did: when the load failed
    the cache is empty, the error notification has been replaced by the
    confirmation, and two timers are pending for the one message. *)
Theorem handleRefresh_masks_failure (snap : State) (reply : Fetch Json) (w : World) :
  let w' := handleRefresh snap reply w in
  loading (ui w') = false /\
  notification (ui w') = Some (mkNotification "Suggestions refreshed" "info") /\
  suggestions (ui w') = suggestions (ui (loadSuggestions snap reply w)) /\
  (email snap <> "" -> failure reply ->
   suggestions (ui w') = [] /\
   timeouts w' = timeouts w ++ [now w + 4000; now w + 4000]).
Proof.
  intros w'. unfold w', handleRefresh, loadSuggestions.
  destruct (email snap) as [|c e]; [by split_and!|].
  split_and!; try by destruct reply as [|[] [data|]].
  intros _ Hfail.
  destruct Hfail as [|[]|[body|]]; simpl; by rewrite <- app_assoc.
Qed.

(** ** Submitting *)

(** X3: A submit that fails (transport error or a status that is not 2xx)
    has made the one POST call, with the email of its render and the form
    fields, leaves cache and selection as they were and shows an error:
    the server's [error] text when it sent one, a stock text otherwise. *)
Theorem onSubmit_failure (snap : State) (data : Form) (reload : Fetch Json)
    (w : World) :
  (forall reply, reply = Rejected \/ (exists body, reply = Responded false body) ->
     let w' := onSubmit snap data reply reload w in
     requests w' = requests w ++ [PostSuggestion (email snap) data] /\
     suggestions (ui w') = suggestions (ui w) /\
     viewSuggestion (ui w') = viewSuggestion (ui w) /\
     exists msg, notification (ui w') = Some (mkNotification msg "error")) /\
  (forall err,
     notification (ui (onSubmit snap data (Responded false (Some err)) reload w))
     = Some (mkNotification (Js.orElse (error err) "Submit failed") "error")).
Proof.
  split.
  - intros reply [-> | [[body|] ->]]; simpl; split_and!; eauto.
  - done.
Qed.

(** X4: A submit the server accepted reloads the list with the closure's
    identity and then shows [Suggestion submitted!], also when that reload
    failed and emptied the cache. *)
Theorem onSubmit_success (snap : State) (data : Form) (body : option JsonObject)
    (reload : Fetch Json) (w : World) :
  email snap <> "" ->
  let w' := onSubmit snap data (Responded true body) reload w in
  requests w' =
    requests w ++ [PostSuggestion (email snap) data;
                   if isAdmin snap then GetAdminSuggestions (email snap)
                   else GetStudentSuggestions (email snap)] /\
  suggestions (ui w') =
    match reload with
    | Responded true (Some d) => arrayOrEmpty d
    | _ => []
    end /\
  notification (ui w') = Some (mkNotification "Suggestion submitted!" "success").
Proof.
  intros He w'. unfold w', onSubmit, loadSuggestions.
  destruct (email snap) as [|c e]; [done|].
  destruct reload as [|[] [d|]]; simpl; by rewrite <- app_assoc.
Qed.

Lemma onSubmit_success_sample :
  email Sample.student <> "" /\
  suggestions (ui (onSubmit Sample.student (mkForm "other" "t" "d")
                     (Responded true None) Rejected (Sample.world Sample.student)))
  = [] /\
  notification (ui (onSubmit Sample.student (mkForm "other" "t" "d")
                      (Responded true None) Rejected (Sample.world Sample.student)))
  = Some (mkNotification "Suggestion submitted!" "success").
Proof.
  assert (He : email Sample.student <> "") by discriminate.
  split; [exact He|].
  destruct (onSubmit_success Sample.student (mkForm "other" "t" "d") None Rejected
              (Sample.world Sample.student) He) as (_ & Hcache & Hnote).
  split; [exact Hcache | exact Hnote].
Defined.

(** ** Viewing *)

(** X5: [handleView] makes exactly one call, to the admin endpoint without
    the email for an admin and to the student endpoint with the email
    otherwise, and never touches the cache.  A 2xx answer selects the
    returned record and shows nothing; any failure leaves the selection
    as it was and shows an error, the server's [error] text when it sent
    one. *)
Theorem handleView_outcome (snap : State) (id : string) (w : World) :
  (forall reply,
     let w' := handleView snap id reply w in
     requests w' = requests w ++ [if isAdmin snap then GetAdminView id
                                  else GetStudentView id (email snap)] /\
     suggestions (ui w') = suggestions (ui w)) /\
  (forall data,
     let w' := handleView snap id (Responded true (Some data)) w in
     viewSuggestion (ui w') = Some (asSuggestion data) /\
     notification (ui w') = notification (ui w) /\
     timeouts w' = timeouts w) /\
  (forall reply, failure reply ->
     let w' := handleView snap id reply w in
     viewSuggestion (ui w') = viewSuggestion (ui w) /\
     exists msg, notification (ui w') = Some (mkNotification msg "error")) /\
  (forall data,
     notification (ui (handleView snap id (Responded false (Some data)) w))
     = Some (mkNotification
               (Js.orElse (error data) "Failed to load suggestion details") "error")).
Proof.
  split_and!.
  - intros reply. by destruct reply as [|[] [data|]].
  - done.
  - intros reply Hfail. destruct Hfail as [|[]|[body|]]; simpl; eauto.
  - done.
Qed.

(** ** A status change that fails *)

(** X6: [handleStatusChange] sends its PATCH whatever comes back; when the
    call fails, cache and selection stay as they were and an error is
    shown, the server's [error] text when it sent one. *)
Theorem handleStatusChange_failure (snap : State) (id newStatus : string)
    (w : World) :
  (forall reply, failure reply ->
     let w' := handleStatusChange snap id newStatus reply w in
     requests w' =
       requests w ++ [PatchAdminSuggestion id newStatus
                        (if isPrincipal snap then "Principal" else "HOD")] /\
     suggestions (ui w') = suggestions (ui w) /\
     viewSuggestion (ui w') = viewSuggestion (ui w) /\
     exists msg, notification (ui w') = Some (mkNotification msg "error")) /\
  (forall body,
     notification (ui (handleStatusChange snap id newStatus
                         (Responded false (Some body)) w))
     = Some (mkNotification (Js.orElse (error body) "Status update failed") "error")).
Proof.
  split.
  - intros reply Hfail. destruct Hfail as [|[]|[body|]]; simpl; split_and!; eauto.
  - done.
Qed.

(** ** Deleting and the identity of records *)

Lemma filter_filter_same {A} (f : A -> bool) (l : list A) :
  List.filter f (List.filter f l) = List.filter f l.
Proof.
  rewrite filter_fuse. apply filter_ext. intros a. by destruct (f a).
Qed.

(** X7: Deleting an id the cache does not hold leaves the cache as it is,
    and so does deleting the same id a second time. *)
Theorem handleDelete_absent (snap snap' : State) (id : string)
    (body body' : option JsonObject) (w : World) :
  ((forall s, s ∈ suggestions (ui w) -> _id s <> id) ->
   suggestions (ui (handleDelete snap id true (Responded true body) w))
   = suggestions (ui w)) /\
  suggestions
    (ui (handleDelete snap' id true (Responded true body')
           (handleDelete snap id true (Responded true body) w)))
  = suggestions (ui (handleDelete snap id true (Responded true body) w)).
Proof.
  split.
  - intros Habs. rewrite handleDelete_cache. by apply filter_other_ids.
  - rewrite !handleDelete_cache. apply filter_filter_same.
Qed.

Lemma NoDup_map_filter {A B} (g : A -> B) (f : A -> bool) (l : list A) :
  NoDup (map g l) -> NoDup (map g (List.filter f l)).
Proof.
  induction l as [|x l IH]; simpl; [done|].
  intros Hnd. apply NoDup_cons in Hnd as [Hx Hnd].
  destruct (f x); simpl; [|by apply IH].
  apply NoDup_cons. split; [|by apply IH].
  intros Hin. apply Hx.
  apply list_elem_of_In, in_map_iff in Hin as (y & Hy & Hin).
  apply list_elem_of_In, in_map_iff. exists y. split; [done|].
  by apply filter_In in Hin as [? _].
Qed.

Lemma map_id_replace id (u : Suggestion) (l : list Suggestion) :
  _id u = id ->
  map _id (map (fun s => if (_id s =? id)%string then u else s) l) = map _id l.
Proof.
  intros Hu. induction l as [|x l IH]; simpl; [done|]. rewrite IH. f_equal.
  destruct (String.eqb_spec (_id x) id) as [He|Hne]; congruence.
Qed.

(** X8: The ids of the cache stay pairwise distinct across a successful
    delete, and across a successful status change whose answer carries
    the id that was asked for; the status change then keeps the ids of
    the cache, in order, as they were. *)
Theorem ids_stay_unique (snap : State) (id : string) (w : World) :
  NoDup (map _id (suggestions (ui w))) ->
  (forall body,
     NoDup (map _id (suggestions
                       (ui (handleDelete snap id true (Responded true body) w))))) /\
  (forall newStatus updated,
     _id (asSuggestion updated) = id ->
     let w' := handleStatusChange snap id newStatus (Responded true (Some updated)) w in
     map _id (suggestions (ui w')) = map _id (suggestions (ui w)) /\
     NoDup (map _id (suggestions (ui w')))).
Proof.
  intros Hnd. split.
  - intros body. rewrite handleDelete_cache. by apply NoDup_map_filter.
  - intros newStatus updated Hid w'. unfold w'.
    rewrite handleStatusChange_cache, map_id_replace by done. by split.
Qed.

Lemma ids_stay_unique_sample :
  NoDup (map _id (suggestions (ui (Sample.world Sample.hod)))) /\
  map _id (suggestions
             (ui (handleStatusChange Sample.hod "1" "resolved"
                    (Responded true (Some (mkJsonObject Sample.rec1_resolved None)))
                    (Sample.world Sample.hod))))
  = ["1"; "2"; "3"].
Proof.
  assert (Hnd : NoDup (map _id (suggestions (ui (Sample.world Sample.hod))))).
  { simpl. repeat (apply NoDup_cons; split;
      [rewrite ?elem_of_cons, ?elem_of_nil; intros H;
       repeat (destruct H as [H|H]); try discriminate; done|]).
    apply NoDup_nil. done. }
  split; [exact Hnd|].
  destruct (ids_stay_unique Sample.hod "1" (Sample.world Sample.hod) Hnd) as [_ Hst].
  by destruct (Hst "resolved" (mkJsonObject Sample.rec1_resolved None) eq_refl)
    as [Hids _].
Defined.

(** An answer that carries another id breaks the uniqueness: the record
    of an id already in the cache is then held twice. *)
Example status_answer_with_other_id :
  map _id (suggestions
             (ui (handleStatusChange Sample.hod "1" "resolved"
                    (Responded true (Some (mkJsonObject Sample.rec2 None)))
                    (Sample.world Sample.hod))))
  = ["2"; "2"; "3"].
Proof. reflexivity. Qed.

(** ** Logging in *)

(** X9: A login with a credential makes the exchange call.  When the
    exchange succeeds the session holds the answer's email, with [false] and the empty string for the fields the answer
    leaves out, and the load that follows in the new render asks the
    admin endpoint for an admin and the student endpoint otherwise, with
    that email. *)
Theorem login_then_load (token : string) (result : LoginReply)
    (reply : Fetch Json) (w : World) :
  token <> "" -> r_email result <> "" ->
  let w1 := handleCredentialResponse (Some token) (Responded true (Some result)) w in
  let w2 := loadSuggestions (ui w1) reply w1 in
  loggedIn (ui w1) = true /\
  email (ui w1) = r_email result /\
  isAdmin (ui w1) = default false (r_isAdmin result) /\
  isPrincipal (ui w1) = default false (r_isPrincipal result) /\
  department (ui w1) = Js.orElse (r_department result) "" /\
  suggestions (ui w1) = suggestions (ui w) /\
  requests w2 =
    requests w ++ [PostAuthGoogle token;
                   if default false (r_isAdmin result)
                   then GetAdminSuggestions (r_email result)
                   else GetStudentSuggestions (r_email result)].
Proof.
  intros Ht He w1 w2. unfold w2, w1, handleCredentialResponse.
  destruct token as [|c token]; [done|].
  split_and!; try done.
  unfold loadSuggestions. simpl.
  destruct (r_email result) as [|c' e]; [done|].
  destruct reply as [|[] [d|]]; simpl; by rewrite <- app_assoc.
Qed.

Lemma login_then_load_sample :
  "token" <> "" /\ "hod@ybit.ac.in" <> "" /\
  requests
    (loadSuggestions
       (ui (handleCredentialResponse (Some "token")
              (Responded true
                 (Some (mkLoginReply "hod@ybit.ac.in" (Some true) None (Some "IT") None)))
              initialWorld))
       Rejected
       (handleCredentialResponse (Some "token")
          (Responded true
             (Some (mkLoginReply "hod@ybit.ac.in" (Some true) None (Some "IT") None)))
          initialWorld))
  = [PostAuthGoogle "token"; GetAdminSuggestions "hod@ybit.ac.in"].
Proof.
  split; [discriminate|]. split; [discriminate|].
  apply (login_then_load "token"
           (mkLoginReply "hod@ybit.ac.in" (Some true) None (Some "IT") None)
           Rejected initialWorld); discriminate.
Defined.

(** X10: Without a credential nothing is sent: the session, the cache and the
    call log are untouched and the error [No credential returned] is
    shown.  An exchange that answers 2xx with an empty email logs the
    user in all the same, and the load that follows sends nothing and
    shows nothing. *)
Theorem login_edge_cases (reply : Fetch LoginReply) (w : World) :
  (forall credential, Js.orElse credential "" = "" ->
     let w' := handleCredentialResponse credential reply w in
     requests w' = requests w /\
     session (ui w') = session (ui w) /\
     suggestions (ui w') = suggestions (ui w) /\
     notification (ui w') = Some (mkNotification "No credential returned" "error")) /\
  (forall token result list,
     token <> "" -> r_email result = "" ->
     let w1 := handleCredentialResponse (Some token)
                 (Responded true (Some result)) w in
     loggedIn (ui w1) = true /\
     loadSuggestions (ui w1) list w1 = w1).
Proof.
  split.
  - intros [[|c t]|] Hc; try done.
  - intros token result list Ht He w1. unfold w1, handleCredentialResponse.
    destruct token as [|c token]; [done|]. split; [done|].
    apply loadSuggestions_guard. simpl. exact He.
Qed.

(** ** Logging out *)

(** X11: [handleLogout] calls no endpoint, leaves the filter controls and the
    busy flag as they are, and shows [Logged out successfully]; a second
    logout changes nothing in the component, only one more timer is
    pending. *)
Theorem handleLogout_again (w : World) :
  requests (handleLogout w) = requests w /\
  controls (ui (handleLogout w)) = controls (ui w) /\
  loading (ui (handleLogout w)) = loading (ui w) /\
  notification (ui (handleLogout w))
    = Some (mkNotification "Logged out successfully" "info") /\
  ui (handleLogout (handleLogout w)) = ui (handleLogout w) /\
  timeouts (handleLogout (handleLogout w))
    = timeouts w ++ [now w + 4000; now w + 4000].
Proof.
  split_and!; try done. simpl. by rewrite <- app_assoc.
Qed.

(** ** The buttons of a row *)

Lemma statusButtons_spec isAdmin s id t :
  ClickStatus id t ∈ statusButtons isAdmin s ->
  isAdmin = true /\ id = _id s /\
  status s <> "resolved" /\ status s <> "invalid" /\
  (t = "in-progress" \/ t = "resolved" \/ t = "invalid") /\
  t <> status s.
Proof.
  unfold statusButtons. destruct isAdmin; simpl; [|by intros ?%elem_of_nil].
  destruct (String.eqb_spec (status s) "resolved") as [|Hr]; simpl;
    [by intros ?%elem_of_nil|].
  destruct (String.eqb_spec (status s) "invalid") as [|Hi]; simpl;
    [by intros ?%elem_of_nil|].
  destruct (String.eqb_spec (status s) "in-progress") as [Hp|Hp]; simpl;
    rewrite ?elem_of_cons, elem_of_nil; intros Hin;
    repeat (destruct Hin as [Hin|Hin]); try done;
    injection Hin as -> ->; split_and!; auto; congruence.
Qed.

(** X12: The status buttons follow the workflow: only an admin gets them,
    never on a resolved or invalid record, each leads to [in-progress],
    [resolved] or [invalid] and none to the status the record has; a
    pending record offers all three and one in progress the last two.
    The delete button is there exactly for a user who is not an admin,
    and the view button always. *)
Theorem rowActions_workflow (isAdmin : bool) (s : Suggestion) :
  (forall id t, ClickStatus id t ∈ rowActions isAdmin s ->
     isAdmin = true /\ id = _id s /\
     status s <> "resolved" /\ status s <> "invalid" /\
     (t = "in-progress" \/ t = "resolved" \/ t = "invalid") /\
     t <> status s) /\
  (status s = "pending" ->
   statusButtons true s = [ClickStatus (_id s) "in-progress";
                           ClickStatus (_id s) "resolved";
                           ClickStatus (_id s) "invalid"]) /\
  (status s = "in-progress" ->
   statusButtons true s = [ClickStatus (_id s) "resolved";
                           ClickStatus (_id s) "invalid"]) /\
  (forall id, ClickDelete id ∈ rowActions isAdmin s <-> isAdmin = false /\ id = _id s) /\
  ClickView (_id s) ∈ rowActions isAdmin s.
Proof.
  split_and!.
  - intros id t. unfold rowActions. rewrite !elem_of_app.
    intros [Hin | [Hin | Hin]].
    + apply list_elem_of_singleton in Hin. discriminate.
    + by apply statusButtons_spec.
    + destruct isAdmin; simpl in Hin; [by apply elem_of_nil in Hin|].
      apply list_elem_of_singleton in Hin. discriminate.
  - intros Hs. unfold statusButtons. by rewrite Hs.
  - intros Hs. unfold statusButtons. by rewrite Hs.
  - intros id. unfold rowActions. rewrite !elem_of_app. split.
    + intros [Hin | [Hin | Hin]].
      * apply list_elem_of_singleton in Hin. discriminate.
      * exfalso. unfold statusButtons in Hin.
        destruct (isAdmin && _); [|by apply elem_of_nil in Hin].
        destruct (negb _); simpl in Hin;
          rewrite ?elem_of_cons, elem_of_nil in Hin;
          repeat (destruct Hin as [Hin|Hin]); done.
      * destruct isAdmin; simpl in Hin; [by apply elem_of_nil in Hin|].
        apply list_elem_of_singleton in Hin. by injection Hin as ->.
    + intros [-> ->]. right; right. simpl. by apply list_elem_of_singleton.
  - unfold rowActions. apply elem_of_app. left. by apply list_elem_of_singleton.
Qed.

Section RenderingFacts.
Variable toLowerCase : string -> string.

Lemma rowActions_id isAdmin s a :
  a ∈ rowActions isAdmin s ->
  match a with
  | ClickView id | ClickStatus id _ | ClickDelete id => id = _id s
  end.
Proof.
  unfold rowActions, statusButtons. rewrite !elem_of_app.
  intros [Hin | [Hin | Hin]].
  - apply list_elem_of_singleton in Hin. by subst.
  - destruct (isAdmin && _); [|by apply elem_of_nil in Hin].
    destruct (negb _); simpl in Hin;
      rewrite ?elem_of_cons, elem_of_nil in Hin;
      repeat (destruct Hin as [Hin|Hin]); try done; by subst.
  - destruct (negb isAdmin); [|by apply elem_of_nil in Hin].
    apply list_elem_of_singleton in Hin. by subst.
Qed.

(** X13: The logged-out screen has no row buttons, and every row button of
    the dashboard names a record the cache holds, one that passes the
    filters. *)
Theorem offeredActions_target_cache (s : State) :
  (loggedIn s = false -> offeredActions toLowerCase s = []) /\
  (forall a, a ∈ offeredActions toLowerCase s ->
     loggedIn s = true /\
     exists r, r ∈ suggestions s /\ keeps toLowerCase (controls s) r = true /\
       match a with
       | ClickView id | ClickStatus id _ | ClickDelete id => id = _id r
       end).
Proof.
  unfold offeredActions, tableRows. split.
  - by intros ->.
  - intros a Ha. apply list_elem_of_In, in_flat_map in Ha as (r & Hr & Ha).
    destruct (loggedIn s); [|done]. split; [done|].
    exists r. unfold filtered in Hr.
    apply list_elem_of_In in Hr. rewrite sorted_by_perm in Hr.
    apply list_elem_of_In, filter_In in Hr as [Hr Hk].
    split_and!; [by apply list_elem_of_In | done|].
    by apply (rowActions_id (isAdmin s)), list_elem_of_In.
Qed.
End RenderingFacts.

(** ** The description cell *)

(** X14: The description cell shows a description of up to 50 UTF-16
    code units as it is (nothing for an empty one); a longer one is cut
    to its first 50 code units followed by three dots, so the cell never
    holds more than 53 code units.  The cut is by code unit: unit 49 stays
    and unit 50 gives way to a dot whatever they are, a surrogate pair
    at that place included. *)
Theorem descriptionCell_truncates (d : list N) :
  ((List.length d <= 50)%nat -> descriptionCell d = d) /\
  ((50 < List.length d)%nat ->
   descriptionCell d = take 50 d ++ [46; 46; 46]%N /\
   List.length (take 50 d) = 50%nat /\
   take 50 d `prefix_of` d /\
   descriptionCell d !! 49%nat = d !! 49%nat /\
   descriptionCell d !! 50%nat = Some 46%N) /\
  (List.length (descriptionCell d) <= 53)%nat /\
  descriptionCell [] = [].
Proof.
  unfold descriptionCell.
  destruct (Nat.ltb_spec 50 (List.length d)) as [Hlong | Hshort].
  - assert (Hlen : List.length (take 50 d) = 50%nat) by (rewrite length_take; lia).
    split_and!.
    + lia.
    + intros _. split_and!.
      * done.
      * exact Hlen.
      * apply prefix_take.
      * rewrite lookup_app_l by lia. apply lookup_take_lt. lia.
      * rewrite lookup_app_r by lia. by rewrite Hlen.
    + rewrite length_app, Hlen. simpl. lia.
    + done.
  - split_and!.
    + intros _. by rewrite app_nil_r, take_ge.
    + lia.
    + rewrite app_nil_r, length_take. lia.
    + done.
Qed.

(** ** The notification bar *)

(** X15: The bar is part of the dashboard only: the message of a failed
    login and the message of a logout are set but never on screen.  On
    the dashboard a success message is green and every other one, the
    [info] confirmation of a refresh included, has the colour of an
    error. *)
Theorem notificationBar_visibility (w : World) :
  (forall credential reply,
     loggedIn (ui w) = false -> loginFails credential reply ->
     let w' := handleCredentialResponse credential reply w in
     notification (ui w') <> None /\ notificationBar (ui w') = None) /\
  (notification (ui (handleLogout w)) <> None /\
   notificationBar (ui (handleLogout w)) = None) /\
  (forall snap reply,
     loggedIn (ui w) = true ->
     notificationBar (ui (handleRefresh snap reply w))
     = Some ("Suggestions refreshed", "#e53e3e")) /\
  (forall msg ty,
     loggedIn (ui w) = true ->
     notificationBar (ui (showNotification msg ty w))
     = Some (msg, if (ty =? "success")%string then "#48bb78" else "#e53e3e")).
Proof.
  split_and!.
  - intros credential reply Hout Hfail w'.
    pose proof (handleCredentialResponse_failed credential reply w Hfail) as Hs.
    unfold session in Hs. injection Hs as Hl _ _ _ _. fold w' in Hl.
    split.
    + unfold w', handleCredentialResponse.
      destruct credential as [[|c t]|]; try done.
      by destruct reply as [|[] [result|]].
    + unfold notificationBar. by rewrite Hl, Hout.
  - done.
  - done.
  - intros snap reply Hin. unfold notificationBar.
    assert (Hl : loggedIn (ui (handleRefresh snap reply w)) = true).
    { pose proof (loadSuggestions_session snap reply (upd (setLoading true) w)) as Hs.
      unfold session in Hs. injection Hs as Hs _ _ _ _.
      unfold handleRefresh. simpl in *. by rewrite Hs. }
    by rewrite Hl.
  - intros msg ty Hin. unfold notificationBar. simpl. by rewrite Hin.
Qed.

(** ** More on the filter pipeline *)

Section SortFacts.
Context {A : Type}.
Variable cmp : A -> A -> Z.
Hypothesis cmp_trans :
  forall a b c, cmp a b <= 0 -> cmp b c <= 0 -> cmp a c <= 0.

(** Inserting in front of a list of elements none of which comes
    before. *)
Lemma insert_front x (l : list A) :
  Forall (fun z => cmp x z <= 0) l -> JsArray.insert cmp x l = x :: l.
Proof.
  intros Hl. destruct l as [|y l]; [done|]. simpl.
  apply Forall_cons in Hl as [Hy _].
  by rewrite (proj2 (Z.ltb_ge _ _) Hy).
Qed.

Lemma filter_insert_out (p : A -> bool) x (l : list A) :
  p x = false -> List.filter p (JsArray.insert cmp x l) = List.filter p l.
Proof.
  intros Hx. induction l as [|y l IH]; simpl; [by rewrite Hx|].
  destruct (0 <? cmp x y); simpl; [by rewrite IH | by rewrite Hx].
Qed.

Lemma filter_insert_in (p : A -> bool) x (l : list A) :
  p x = true ->
  StronglySorted (fun a b => cmp a b <= 0) l ->
  List.filter p (JsArray.insert cmp x l) = JsArray.insert cmp x (List.filter p l).
Proof using cmp_trans.
  intros Hx. induction 1 as [|y l Hs IH Hy]; simpl; [by rewrite Hx|].
  destruct (0 <? cmp x y) eqn:Hc.
  - simpl. rewrite IH. destruct (p y); [|done]. simpl. by rewrite Hc.
  - apply Z.ltb_ge in Hc. simpl. rewrite Hx.
    symmetry. apply (insert_front x (List.filter p (y :: l))).
    apply Forall_forall. intros z Hz.
    apply list_elem_of_In, filter_In in Hz as [Hz _].
    destruct Hz as [<- | Hz]; [done|].
    eapply cmp_trans; [exact Hc|].
    rewrite Forall_forall in Hy. by apply Hy, list_elem_of_In.
Qed.

Hypothesis cmp_total : forall a b, 0 < cmp a b -> cmp b a <= 0.

(** Sorting a selection gives the selection of the sorted list. *)
Lemma sorted_by_filter (p : A -> bool) (l : list A) :
  JsArray.sorted_by cmp (List.filter p l) = List.filter p (JsArray.sorted_by cmp l).
Proof using cmp_trans cmp_total.
  induction l as [|x l IH]; simpl; [done|].
  destruct (p x) eqn:Hx; simpl.
  - rewrite IH. symmetry. apply filter_insert_in; [done|].
    by apply sorted_by_sorted.
  - by rewrite filter_insert_out.
Qed.
End SortFacts.

Lemma StronglySorted_snoc {A} (S : A -> A -> Prop) (k : list A) x :
  StronglySorted S k -> Forall (fun a => S a x) k -> StronglySorted S (k ++ [x]).
Proof.
  induction 1 as [|y k Hk IH Hy]; intros Hx; simpl.
  - repeat constructor.
  - apply Forall_cons in Hx as [Hyx Hx]. constructor; [by apply IH|].
    apply Forall_app. split; [done|]. by constructor.
Qed.

Lemma StronglySorted_rev {A} (R : A -> A -> Prop) (l : list A) :
  StronglySorted R l -> StronglySorted (fun a b => R b a) (rev l).
Proof.
  induction 1 as [|x l Hs IH Hx]; simpl; [constructor|].
  apply StronglySorted_snoc; [done|].
  apply Forall_forall. intros a Ha.
  rewrite Forall_forall in Hx. apply Hx.
  by apply list_elem_of_In, in_rev, list_elem_of_In.
Qed.

Lemma filter_rev_comm {A} (p : A -> bool) (l : list A) :
  List.filter p (rev l) = rev (List.filter p l).
Proof.
  induction l as [|x l IH]; simpl; [done|].
  rewrite List.filter_app, IH. simpl.
  destruct (p x); simpl; [done | by rewrite app_nil_r].
Qed.

(** At most one element of a list with distinct keys has a given key. *)
Lemma filter_key_short {A} (key : A -> Z) t (l : list A) :
  NoDup (map key l) ->
  (List.length (List.filter (fun a => (key a =? t)%Z) l) <= 1)%nat.
Proof.
  induction l as [|x l IH]; simpl; [lia|].
  intros Hnd. apply NoDup_cons in Hnd as [Hx Hnd]. specialize (IH Hnd).
  destruct (Z.eqb_spec (key x) t) as [He|Hne]; [|done]. simpl.
  destruct (List.filter (fun a => key a =? t) l) as [|y k] eqn:Hf; [simpl; lia|].
  exfalso. apply Hx.
  assert (Hy : In y (y :: k)) by (by left).
  rewrite <- Hf in Hy. apply filter_In in Hy as [Hy Hk].
  apply Z.eqb_eq in Hk. apply list_elem_of_In, in_map_iff.
  exists y. split; [congruence | done].
Qed.

Lemma rev_short {A} (l : list A) : (List.length l <= 1)%nat -> rev l = l.
Proof. destruct l as [|x [|y l]]; simpl; [done | done | lia]. Qed.

Section PipelineMore.
Variable toLowerCase : string -> string.

(** X16: With the controls as [useState] sets them (no status filter, no
    category filter, empty search) the table shows every record of the
    cache. *)
Theorem filtered_shows_all (c : Controls) (cache : list Suggestion) :
  toLowerCase "" = "" ->
  statusFilter c = "all" -> categoryFilter c = "all" -> searchTerm c = "" ->
  filtered toLowerCase c cache ≡ₚ cache /\
  List.length (filtered toLowerCase c cache) = List.length cache.
Proof.
  intros Hlow Hs Hc Ht.
  assert (Hall : List.filter (keeps toLowerCase c) cache = cache).
  { clear -Hlow Hs Hc Ht. induction cache as [|x l IH]; simpl; [done|].
    unfold keeps at 1, statusTest, categoryTest. rewrite Hs, Hc. simpl.
    rewrite (searchTest_empty toLowerCase Hlow c x Ht). by rewrite IH. }
  assert (Hperm : filtered toLowerCase c cache ≡ₚ cache).
  { unfold filtered. by rewrite sorted_by_perm, Hall. }
  split; [exact Hperm | by rewrite Hperm].
Qed.

(** X17: Tightening the filters with the sort order unchanged takes rows out
    of the table and leaves the others in the order they had. *)
Theorem filtered_narrowing (c c' : Controls) (cache : list Suggestion) :
  sortOrder c' = sortOrder c ->
  (forall s, keeps toLowerCase c' s = true -> keeps toLowerCase c s = true) ->
  filtered toLowerCase c' cache
    = List.filter (keeps toLowerCase c') (filtered toLowerCase c cache) /\
  sublist (filtered toLowerCase c' cache) (filtered toLowerCase c cache).
Proof.
  intros Hso Hsub.
  assert (Heq : filtered toLowerCase c' cache
                = List.filter (keeps toLowerCase c') (filtered toLowerCase c cache)).
  { unfold filtered.
    rewrite <- (sorted_by_filter (byCreatedAt c)
                  (byCreatedAt_trans c) (byCreatedAt_total c)).
    rewrite filter_fuse.
    assert (Hcmp : byCreatedAt c' = byCreatedAt c)
      by (unfold byCreatedAt; by rewrite Hso).
    rewrite Hcmp. f_equal. apply filter_ext. intros s.
    destruct (keeps toLowerCase c' s) eqn:Hk; [by rewrite (Hsub s Hk)|].
    by rewrite andb_false_r. }
  split; [exact Heq|]. rewrite Heq. apply filter_sublist.
Qed.

(** X18: When the records on display have pairwise different timestamps,
    [newest] lists them in the reverse of the order any other setting
    gives. *)
Theorem newest_reverses_oldest (c : Controls) (cache : list Suggestion) :
  sortOrder c <> "newest" ->
  NoDup (map createdAt (List.filter (keeps toLowerCase c) cache)) ->
  filtered toLowerCase (withSortOrder "newest" c) cache
  = rev (filtered toLowerCase c cache).
Proof.
  intros Hold Hnd. symmetry. apply filtered_unique.
  - eapply StronglySorted_mono;
      [|apply StronglySorted_rev, (filtered_sorted toLowerCase c cache)].
    intros a b [_ Hba]. split; [intros _; by apply Hba | done].
  - intros t. rewrite filter_rev_comm, filtered_classes.
    change (fun s => keeps toLowerCase (withSortOrder "newest" c) s && (createdAt s =? t))
      with (fun s => keeps toLowerCase c s && (createdAt s =? t)).
    apply rev_short. rewrite <- filter_fuse. by apply filter_key_short.
Qed.
End PipelineMore.

Lemma filtered_shows_all_sample :
  Js.toLowerCaseAscii "" = "" /\
  List.length (filtered Js.toLowerCaseAscii (controls initialState) Sample.cache) = 3%nat.
Proof.
  split; [reflexivity|].
  by destruct (filtered_shows_all Js.toLowerCaseAscii (controls initialState)
                 Sample.cache eq_refl eq_refl eq_refl eq_refl) as [_ ->].
Defined.

Lemma filtered_narrowing_sample :
  sortOrder (mkControls "resolved" "all" "" "newest") = sortOrder (controls initialState) /\
  sublist (filtered Js.toLowerCaseAscii (mkControls "resolved" "all" "" "newest")
             Sample.cache)
          (filtered Js.toLowerCaseAscii (controls initialState) Sample.cache).
Proof.
  split; [reflexivity|].
  apply (filtered_narrowing Js.toLowerCaseAscii (controls initialState)
           (mkControls "resolved" "all" "" "newest") Sample.cache); [reflexivity|].
  intros s. unfold keeps, statusTest, categoryTest. simpl.
  intros Hk. apply andb_true_iff in Hk as [_ Hk]. exact Hk.
Defined.

Lemma newest_reverses_oldest_sample :
  sortOrder (mkControls "all" "all" "" "oldest") <> "newest" /\
  filtered Js.toLowerCaseAscii (mkControls "all" "all" "" "newest")
    [Sample.rec1; Sample.rec2]
  = [Sample.rec2; Sample.rec1].
Proof.
  split; [discriminate|].
  apply (newest_reverses_oldest Js.toLowerCaseAscii
           (mkControls "all" "all" "" "oldest") [Sample.rec1; Sample.rec2]);
    [discriminate|].
  simpl. apply NoDup_cons. split.
  - intros Hin. apply list_elem_of_singleton in Hin. discriminate.
  - apply NoDup_singleton.
Defined.

(** With equal timestamps the two orders are not mirror images: records
    of the same age keep the order of the cache in both. *)
Example newest_with_ties :
  filtered Js.toLowerCaseAscii (mkControls "all" "all" "" "newest") Sample.cache
  <> rev (filtered Js.toLowerCaseAscii (mkControls "all" "all" "" "oldest") Sample.cache).
Proof. discriminate. Qed.

(** ** What an event leaves alone *)

Ltac no_call := exists []; split; [by rewrite app_nil_r | simpl; lia].
Ltac one_call := eexists [_]; split; [reflexivity | simpl; lia].

Lemma loadSuggestions_frame snap reply w :
  viewSuggestion (ui (loadSuggestions snap reply w)) = viewSuggestion (ui w) /\
  controls (ui (loadSuggestions snap reply w)) = controls (ui w) /\
  exists new, requests (loadSuggestions snap reply w) = requests w ++ new /\
              (List.length new <= 1)%nat.
Proof.
  unfold loadSuggestions. destruct (email snap) as [|c e].
  - split_and!; try done. no_call.
  - destruct reply as [|[] [data|]]; (split_and!; try done; one_call).
Qed.

(** X19: Only loading, refreshing, submitting, deleting, changing a status and
    logging out write the cache; only viewing, closing the view,
    deleting, changing a status and logging out write the selection, so
    a reload leaves a selected record selected even when the new list
    does not hold it.  The call log only grows, by at most two calls per
    event, and not at all when time passes, a control is changed, the
    view is closed or the user logs out. *)
Theorem step_frames (snap : State) (e : Event) (w : World) :
  (writesCache e = false ->
   suggestions (ui (step snap e w)) = suggestions (ui w)) /\
  (writesSelection e = false ->
   viewSuggestion (ui (step snap e w)) = viewSuggestion (ui w)) /\
  (callsFetch e = false -> requests (step snap e w) = requests w) /\
  (exists new, requests (step snap e w) = requests w ++ new /\
               (List.length new <= 2)%nat).
Proof.
  destruct e; cbn [step writesCache writesSelection callsFetch].
  - unfold handleCredentialResponse. destruct credential as [[|c t]|].
    + split_and!; try done. no_call.
    + destruct reply as [|[] [result|]]; (split_and!; try done; one_call).
    + split_and!; try done. no_call.
  - destruct (loadSuggestions_frame snap reply w) as (Hv & _ & new & Hr & Hn).
    split_and!; try done. exists new. split; [done | lia].
  - destruct (loadSuggestions_frame snap reply (upd (setLoading true) w))
      as (Hv & _ & new & Hr & Hn).
    split_and!; try done. exists new. split; [exact Hr | lia].
  - unfold handleDelete. destruct confirmed; cbn [negb].
    + destruct reply as [|[] [body|]]; try destruct (viewing snap id);
        (split_and!; try done; one_call).
    + split_and!; try done. no_call.
  - unfold handleStatusChange.
    destruct reply as [|[] [body|]]; try destruct (viewing snap id);
      (split_and!; try done; one_call).
  - unfold handleView.
    destruct reply as [|[] [body|]]; (split_and!; try done; one_call).
  - split_and!; try done. no_call.
  - unfold onSubmit. destruct reply as [|[] [body|]];
      try (split_and!; try done; one_call).
    + destruct (loadSuggestions_frame snap reload
                  (fetch (PostSuggestion (email snap) data) w))
        as (Hv & _ & new & Hr & Hn).
      split_and!; try done.
      exists (PostSuggestion (email snap) data :: new). split; [|simpl; lia].
      change (requests (showNotification "Suggestion submitted!" "success"
                (loadSuggestions snap reload
                   (fetch (PostSuggestion (email snap) data) w))))
        with (requests (loadSuggestions snap reload
                (fetch (PostSuggestion (email snap) data) w))).
      rewrite Hr. simpl. by rewrite <- app_assoc.
    + destruct (loadSuggestions_frame snap reload
                  (fetch (PostSuggestion (email snap) data) w))
        as (Hv & _ & new & Hr & Hn).
      split_and!; try done.
      exists (PostSuggestion (email snap) data :: new). split; [|simpl; lia].
      change (requests (showNotification "Suggestion submitted!" "success"
                (loadSuggestions snap reload
                   (fetch (PostSuggestion (email snap) data) w))))
        with (requests (loadSuggestions snap reload
                (fetch (PostSuggestion (email snap) data) w))).
      rewrite Hr. simpl. by rewrite <- app_assoc.
  - split_and!; try done. no_call.
  - split_and!; try done. no_call.
  - split_and!; try done. no_call.
  - split_and!; try done. no_call.
  - split_and!; try done. no_call.
  - unfold advance. cbn [ui requests].
    destruct (List.filter (fun d => d <=? now w + Z.of_N dt) (timeouts w));
      (split_and!; try done; no_call).
Qed.

(** A reload does not look at the selection: the record on display can
    be one the cache no longer holds. *)
Example selection_outlives_reload :
  let w' := loadSuggestions Sample.student (Responded true (Some (JArray [Sample.rec2])))
              (Sample.world Sample.student) in
  viewSuggestion (ui w') = Some Sample.rec1 /\ Sample.rec1 ∉ suggestions (ui w').
Proof.
  split; [reflexivity|]. simpl. intros Hin.
  apply list_elem_of_singleton in Hin. discriminate.
Qed.

(** ** Answers that arrive one after the other *)

Lemma replace_absent id (u : Suggestion) (l : list Suggestion) :
  (forall x, x ∈ l -> _id x <> id) ->
  map (fun s => if (_id s =? id)%string then u else s) l = l.
Proof.
  induction l as [|x l IH]; intros Hl; simpl; [done|].
  rewrite IH by (intros y Hy; apply Hl; by right).
  by rewrite (proj2 (String.eqb_neq _ _) (Hl x ltac:(by left))).
Qed.

Lemma replace_twice id (u1 u2 : Suggestion) (l : list Suggestion) :
  _id u1 = id ->
  map (fun s => if (_id s =? id)%string then u2 else s)
      (map (fun s => if (_id s =? id)%string then u1 else s) l)
  = map (fun s => if (_id s =? id)%string then u2 else s) l.
Proof.
  intros Hu. rewrite map_map. apply map_ext. intros s.
  destruct (String.eqb_spec (_id s) id) as [He|Hne].
  - by rewrite (proj2 (String.eqb_eq _ _) Hu).
  - by rewrite (proj2 (String.eqb_neq _ _) Hne).
Qed.

Lemma filter_replace id (u : Suggestion) (l : list Suggestion) :
  _id u = id ->
  List.filter (fun s => negb (_id s =? id)%string)
    (map (fun s => if (_id s =? id)%string then u else s) l)
  = List.filter (fun s => negb (_id s =? id)%string) l.
Proof.
  intros Hu. induction l as [|x l IH]; simpl; [done|]. rewrite IH.
  destruct (String.eqb_spec (_id x) id) as [He|Hne]; simpl.
  - by rewrite (proj2 (String.eqb_eq _ _) Hu).
  - by rewrite (proj2 (String.eqb_neq _ _) Hne).
Qed.

(** X20: Of two status answers for one id, each carrying that id, the one
    that completes last decides the cache entry.  A status answer for a
    record that a delete has taken out does not bring it back, and the
    delete and the status change give the same cache in either order. *)
Theorem later_answer_wins (snap1 snap2 : State) (id st1 st2 : string)
    (u1 u2 : JsonObject) (body : option JsonObject) (w : World) :
  _id (asSuggestion u1) = id ->
  let change1 := handleStatusChange snap1 id st1 (Responded true (Some u1)) in
  let change2 := handleStatusChange snap2 id st2 (Responded true (Some u2)) in
  let delete := handleDelete snap2 id true (Responded true body) in
  suggestions (ui (change2 (change1 w))) = suggestions (ui (change2 w)) /\
  suggestions (ui (change1 (delete w))) = suggestions (ui (delete w)) /\
  suggestions (ui (delete (change1 w))) = suggestions (ui (delete w)).
Proof.
  intros Hu change1 change2 delete. unfold change1, change2, delete.
  rewrite !handleStatusChange_cache, !handleDelete_cache, handleStatusChange_cache.
  split_and!.
  - by apply replace_twice.
  - apply replace_absent. intros x Hx.
    apply list_elem_of_In, filter_In in Hx as [_ Hx].
    by apply negb_true_iff, String.eqb_neq in Hx.
  - by apply filter_replace.
Qed.

Lemma later_answer_wins_sample :
  _id (asSuggestion (mkJsonObject Sample.rec1_resolved None)) = "1" /\
  map _id (suggestions
     (ui (handleStatusChange Sample.hod "1" "resolved"
            (Responded true (Some (mkJsonObject Sample.rec1_resolved None)))
            (handleDelete Sample.hod "1" true (Responded true None)
               (Sample.world Sample.hod)))))
  = ["2"; "3"].
Proof.
  split; [reflexivity|].
  destruct (later_answer_wins Sample.hod Sample.hod "1" "resolved" "resolved"
              (mkJsonObject Sample.rec1_resolved None)
              (mkJsonObject Sample.rec1_resolved None) None
              (Sample.world Sample.hod) eq_refl) as (_ & Hback & _).
  cbv zeta in Hback. by rewrite Hback.
Defined.
